(** * larg4: ParticleListActionService

    A shallow embedding of [larg4/pluginActions/ParticleListAction_service.cxx],
    the Geant4 user action that maintains the list of particles of an event:
    parentage resolution through [fParentIDMap], the admission filter of
    [preUserTrackingAction], trajectory building in [userSteppingAction],
    the daughter-linking functor [UpdateDaughterInformation], [YieldList]
    and [endOfEventAction].

    Conventions of the embedding:
    - C++ [int] and [G4int] are [Z]; the arithmetic of the file
      ([+ fTrackIDOffset], [-1 *], [highestID + 1]) is written in [Z],
      i.e. in the range where C++ defines it (signed overflow is undefined
      behaviour there and is not given a meaning here);
    - C++ [double] and [G4double] are IEEE-754 binary64 numbers, the
      kernel's primitive [float];
    - [std::string] is [string]; [std::map<int,int>] is [gmap Z Z];
      [std::set<int>] is [gset Z];
    - a pointer that the code dereferences and that may be null is an
      [option]; dereferencing [None] is the fault [NullPointer];
    - the [while] loops are run with fuel. *)

From Stdlib Require Import ZArith String Lia.
From Stdlib Require Import Floats.PrimFloat.
From stdpp Require Import gmap strings list fin_maps sorting.

Set Warnings "-inexact-float".
Local Open Scope Z_scope.

(** ** Faults and the result monad *)

Inductive fault : Type :=
| NullPointer        (* a null pointer is dereferenced *)
| DuplicateTrackID   (* sim::ParticleList::Add throws: the id is already there *)
| MissingKey         (* std::map::at throws std::out_of_range *)
| NonTermination.    (* a loop that never exits *)

Inductive result (A : Type) : Type :=
| Ok (a : A)
| Fault (f : fault).
Arguments Ok {A} a.
Arguments Fault {A} f.

#[global] Instance result_ret : MRet result := fun A a => Ok a.
#[global] Instance result_bind : MBind result := fun A B k r =>
  match r with
  | Ok a => k a
  | Fault f => Fault f
  end.

(** [p->member] on a pointer that may be null. *)
Definition deref {A : Type} (p : option A) : result A :=
  match p with
  | Some a => Ok a
  | None => Fault NullPointer
  end.

(** ** Strings *)

(** [s.find(pat) != std::string::npos], also [G4String::contains]. *)
Fixpoint contains (pat s : string) : bool :=
  String.prefix pat s ||
  match s with
  | EmptyString => false
  | String _ s' => contains pat s'
  end.

(** ** The parent map and [GetParentage] *)

Abbreviation ParentIDMap := (gmap Z Z).

(** The [while] loop of [GetParentage]: [itr] is the iterator
    ([None] is [fParentIDMap.end()], [Some second] an entry with that
    second component); one unit of fuel is spent per iteration. *)
Fixpoint GetParentage_loop (fuel : nat) (pmap : ParentIDMap)
    (parentid : Z) (itr : option Z) : option Z :=
  match itr with
  | None => Some parentid
  | Some second =>
      match fuel with
      | O => None
      | S fuel' => GetParentage_loop fuel' pmap second (pmap !! second)
      end
  end.

(** [NoParticleId] is [sim::NoParticleId] of lardataobj/Simulation/sim.h,
    a constant this file only uses. *)
Definition GetParentage_fuel (NoParticleId : Z) (fuel : nat)
    (pmap : ParentIDMap) (trackid : Z) : option Z :=
  GetParentage_loop fuel pmap NoParticleId (pmap !! trackid).

(** [GetParentage] itself. A run that ends at all ends within [size pmap]
    iterations (lemma [GetParentage_fuel_bound]), so [None] means that
    the C++ loop does not terminate. *)
Definition GetParentage (NoParticleId : Z) (pmap : ParentIDMap)
    (trackid : Z) : option Z :=
  GetParentage_fuel NoParticleId (size pmap) pmap trackid.

(** [follow m n k]: the key reached from [k] by [n] successful lookups. *)
Fixpoint follow (m : ParentIDMap) (n : nat) (k : Z) : option Z :=
  match n with
  | O => Some k
  | S n' =>
      match m !! k with
      | None => None
      | Some v => follow m n' v
      end
  end.

(** No chain of lookups comes back to where it started. *)
Definition no_cycle (m : ParentIDMap) : Prop :=
  forall (k : Z) (n : nat), (0 < n)%nat -> follow m n k <> Some k.

(** The keys met on the way from [k] (at most [n] of them), in order. *)
Fixpoint trail (m : ParentIDMap) (n : nat) (k : Z) : list Z :=
  match n with
  | O => []
  | S n' =>
      match m !! k with
      | None => []
      | Some v => k :: trail m n' v
      end
  end.

(** ** Vectors, particles and the particle list *)

Record G4ThreeVector : Type := MkG4ThreeVector
  { g4x : float; g4y : float; g4z : float }.

Record TVector3 : Type := MkTVector3
  { tvX : float; tvY : float; tvZ : float }.

Record TLorentzVector : Type := MkTLorentzVector
  { lvX : float; lvY : float; lvZ : float; lvT : float }.

(** A trajectory point as [simb::MCParticle::AddTrajectoryPoint] receives
    it: position, momentum and the name of the process of the step. *)
Definition TrajectoryPoint : Type := TLorentzVector * TLorentzVector * string.

(** The members of [simb::MCParticle] that this file reads or writes. *)
Record MCParticle : Type := MkMCParticle
  { TrackId : Z;
    PdgCode : Z;
    Process : string;
    Mother : Z;
    Mass : float;
    Polarization : TVector3;
    Weight : float;
    EndProcess : string;
    Trajectory : list TrajectoryPoint;
    Daughters : gset Z }.

(** [new simb::MCParticle(trackID, pdgCode, process_name, parentID, mass)] *)
Definition new_MCParticle (trackID pdgCode : Z) (process_name : string)
    (parentID : Z) (mass : float) : MCParticle :=
  MkMCParticle trackID pdgCode process_name parentID mass
    (MkTVector3 0 0 0) 0 EmptyString [] ∅.

Definition SetPolarization (pol : TVector3) (p : MCParticle) : MCParticle :=
  MkMCParticle (TrackId p) (PdgCode p) (Process p) (Mother p) (Mass p)
    pol (Weight p) (EndProcess p) (Trajectory p) (Daughters p).

Definition SetWeight (w : float) (p : MCParticle) : MCParticle :=
  MkMCParticle (TrackId p) (PdgCode p) (Process p) (Mother p) (Mass p)
    (Polarization p) w (EndProcess p) (Trajectory p) (Daughters p).

Definition SetEndProcess (process : string) (p : MCParticle) : MCParticle :=
  MkMCParticle (TrackId p) (PdgCode p) (Process p) (Mother p) (Mass p)
    (Polarization p) (Weight p) process (Trajectory p) (Daughters p).

Definition AddTrajectoryPoint (pos mom : TLorentzVector) (process : string)
    (p : MCParticle) : MCParticle :=
  MkMCParticle (TrackId p) (PdgCode p) (Process p) (Mother p) (Mass p)
    (Polarization p) (Weight p) (EndProcess p)
    (Trajectory p ++ [(pos, mom, process)]) (Daughters p).

Definition NumberTrajectoryPoints (p : MCParticle) : nat :=
  length (Trajectory p).

Definition AddDaughter (trackID : Z) (p : MCParticle) : MCParticle :=
  MkMCParticle (TrackId p) (PdgCode p) (Process p) (Mother p) (Mass p)
    (Polarization p) (Weight p) (EndProcess p) (Trajectory p)
    ({[trackID]} ∪ Daughters p).

(** An entry of [sim::ParticleList]: the particle the list owns, or, once
    the particle is archived, a null pointer with the parent id kept on
    the side. *)
Inductive slot : Type :=
| Live (p : MCParticle)
| Archived (mother : Z).

(** Modelled from the spec: [sim::ParticleList]
    (nutools/ParticleNavigation/ParticleList.h) is used by this file and
    defined outside it; section 3 of the spec gives it as a map from track
    id to a record or an archived marker, iterated in ascending track id. *)
Abbreviation ParticleList := (gmap Z slot).

(** Modelled from the spec: [knownParticle] of section 4.1; section 3 has
    archived entries excluded from it. *)
Definition KnownParticle (pl : ParticleList) (trackID : Z) : bool :=
  match pl !! trackID with
  | Some (Live _) => true
  | _ => false
  end.

(** Modelled from the spec: [add] of section 4.1; the key is the record's
    track id and must not be in the list already (sections 4.1 and 7). *)
Definition Add (p : MCParticle) (pl : ParticleList) : result ParticleList :=
  match pl !! TrackId p with
  | Some _ => Fault DuplicateTrackID
  | None => Ok (<[TrackId p := Live p]> pl)
  end.

(** Modelled from the spec: [archive] of section 4.1; the payload is
    released and the parent id retained. *)
Definition Archive (trackID : Z) (pl : ParticleList) : ParticleList :=
  match pl !! trackID with
  | Some (Live p) => <[trackID := Archived (Mother p)]> pl
  | _ => pl
  end.

(** Modelled from the spec: [motherOf] of section 4.1; it works for
    archived entries too and has no answer for an absent key. *)
Definition GetMotherOf (pl : ParticleList) (trackID : Z) : result Z :=
  match pl !! trackID with
  | Some (Live p) => Ok (Mother p)
  | Some (Archived mother) => Ok mother
  | None => Fault MissingKey
  end.

(** [begin()] to [end()]: the entries in ascending key order. *)
Definition entry_le (a b : Z * slot) : Prop := a.1 <= b.1.

#[global] Instance entry_le_dec (a b : Z * slot) : Decision (entry_le a b) :=
  Z_le_dec a.1 b.1.

Definition entries (pl : ParticleList) : list (Z * slot) :=
  merge_sort entry_le (map_to_list pl).

(** What is behind the pointer of an entry ([nullptr] once archived). *)
Definition second (e : Z * slot) : option MCParticle :=
  match e.2 with
  | Live p => Some p
  | Archived _ => None
  end.

(** ** What the engine hands to the callbacks *)

Module G4StepPoint.
Record t : Type := Mk
  { GetPosition : G4ThreeVector;
    GetGlobalTime : float;
    GetMomentum : G4ThreeVector;
    GetTotalEnergy : float;
    (* GetProcessDefinedStep(): the name of the process, behind a pointer *)
    GetProcessDefinedStep : option string }.

Definition SetGlobalTime (time : float) (sp : t) : t :=
  Mk (GetPosition sp) time (GetMomentum sp) (GetTotalEnergy sp)
    (GetProcessDefinedStep sp).
End G4StepPoint.

(** [GetUserInformation()] seen through the [dynamic_cast] to
    [g4b::PrimaryParticleInformation]: does the cast give a pointer? *)
Record G4PrimaryParticle : Type := MkG4PrimaryParticle
  { ppi : bool }.

Module G4Track.
Record t : Type := Mk
  { GetTrackID : Z;
    GetParentID : Z;
    (* GetDefinition()->GetPDGEncoding() *)
    GetPDGEncoding : Z;
    (* GetDynamicParticle()->GetPrimaryParticle(), null for a secondary *)
    GetPrimaryParticle : option G4PrimaryParticle;
    (* GetCreatorProcess(): the name of the process, behind a pointer *)
    GetCreatorProcess : option string;
    GetKineticEnergy : float;
    (* GetDynamicParticle()->GetMass() *)
    GetMass : float;
    GetPolarization : G4ThreeVector;
    GetWeight : float;
    GetGlobalTime : float;
    GetVelocity : float;
    (* GetStep()->GetPostStepPoint()->GetProcessDefinedStep() *)
    GetStepProcess : option string }.
End G4Track.

Module G4Step.
Record t : Type := Mk
  { GetTrack : G4Track.t;
    GetStepLength : float;
    GetDeltaTime : float;
    GetPreStepPoint : G4StepPoint.t;
    GetPostStepPoint : G4StepPoint.t }.

(** [step->GetPostStepPoint()->SetGlobalTime(time)]: the step point is
    reached through a pointer, so the write lands in the engine's step. *)
Definition SetPostGlobalTime (time : float) (step : t) : t :=
  Mk (GetTrack step) (GetStepLength step) (GetDeltaTime step)
    (GetPreStepPoint step)
    (G4StepPoint.SetGlobalTime time (GetPostStepPoint step)).
End G4Step.

(** ** Constants and configuration *)

(** Constants of other packages: [sim::NoParticleId], the CLHEP units,
    and what a defaulted move constructor leaves in a moved-from
    [simb::MCParticle]. *)
Record Env : Type := MkEnv
  { NoParticleId : Z;
    cm : float;
    ns : float;
    GeV : float;
    moved_from : MCParticle -> MCParticle }.

(** The members set by the constructor, and [fFilter]
    (null unless a position filter was given to the service). *)
Record Config : Type := MkConfig
  { fenergyCut : float;
    fstoreTrajectories : bool;
    fKeepEMShowerDaughters : bool;
    fFilter : option (TLorentzVector -> bool) }.

(** ** The state of the service *)

(** [ParticleInfo_t]: [particle] points into [fparticleList] and is
    modelled by the key of the particle there. *)
Record ParticleInfo_t : Type := MkParticleInfo
  { particle : option Z;
    keep : bool }.

Definition clear : ParticleInfo_t := MkParticleInfo None false.

Definition hasParticle (info : ParticleInfo_t) : bool :=
  match particle info with
  | Some _ => true
  | None => false
  end.

(** A truth record as [art::Ptr<simb::MCTruth>]: handle and index. *)
Definition MCTruthPtr : Type := nat * nat.

Record State : Type := MkState
  { (* static members *)
    fCurrentTrackID : Z;
    fTrackIDOffset : Z;
    (* members *)
    fCurrentParticle : ParticleInfo_t;
    fparticleList : ParticleList;
    fParentIDMap : ParentIDMap;
    partCol_ : list MCParticle;
    (* truth record, index into partCol_ *)
    tpassn_ : list (MCTruthPtr * nat);
    (* the globals of the file *)
    globalTime : float;
    velocity_G4 : float;
    velocity_step : float;
    (* ghost: the positions handed to fFilter->mustKeep, latest first *)
    mustKeepCalls : list TLorentzVector }.

Definition set_fCurrentTrackID (v : Z) (st : State) : State :=
  MkState v (fTrackIDOffset st) (fCurrentParticle st) (fparticleList st)
    (fParentIDMap st) (partCol_ st) (tpassn_ st)
    (globalTime st) (velocity_G4 st) (velocity_step st) (mustKeepCalls st).

Definition set_fTrackIDOffset (v : Z) (st : State) : State :=
  MkState (fCurrentTrackID st) v (fCurrentParticle st) (fparticleList st)
    (fParentIDMap st) (partCol_ st) (tpassn_ st)
    (globalTime st) (velocity_G4 st) (velocity_step st) (mustKeepCalls st).

Definition set_fCurrentParticle (v : ParticleInfo_t) (st : State) : State :=
  MkState (fCurrentTrackID st) (fTrackIDOffset st) v (fparticleList st)
    (fParentIDMap st) (partCol_ st) (tpassn_ st)
    (globalTime st) (velocity_G4 st) (velocity_step st) (mustKeepCalls st).

Definition set_fparticleList (v : ParticleList) (st : State) : State :=
  MkState (fCurrentTrackID st) (fTrackIDOffset st) (fCurrentParticle st) v
    (fParentIDMap st) (partCol_ st) (tpassn_ st)
    (globalTime st) (velocity_G4 st) (velocity_step st) (mustKeepCalls st).

Definition set_fParentIDMap (v : ParentIDMap) (st : State) : State :=
  MkState (fCurrentTrackID st) (fTrackIDOffset st) (fCurrentParticle st)
    (fparticleList st) v (partCol_ st) (tpassn_ st)
    (globalTime st) (velocity_G4 st) (velocity_step st) (mustKeepCalls st).

Definition set_outputs (col : list MCParticle) (assn : list (MCTruthPtr * nat))
    (st : State) : State :=
  MkState (fCurrentTrackID st) (fTrackIDOffset st) (fCurrentParticle st)
    (fparticleList st) (fParentIDMap st) col assn
    (globalTime st) (velocity_G4 st) (velocity_step st) (mustKeepCalls st).

Definition set_globals (t vG4 vstep : float) (st : State) : State :=
  MkState (fCurrentTrackID st) (fTrackIDOffset st) (fCurrentParticle st)
    (fparticleList st) (fParentIDMap st) (partCol_ st) (tpassn_ st)
    t vG4 vstep (mustKeepCalls st).

Definition set_mustKeepCalls (v : list TLorentzVector) (st : State) : State :=
  MkState (fCurrentTrackID st) (fTrackIDOffset st) (fCurrentParticle st)
    (fparticleList st) (fParentIDMap st) (partCol_ st) (tpassn_ st)
    (globalTime st) (velocity_G4 st) (velocity_step st) v.

(** ** The callbacks *)

Definition beginOfEventAction (env : Env) (st : State) : State :=
  let st := set_fCurrentParticle clear st in
  let st := set_fparticleList ∅ st in
  let st := set_fParentIDMap ∅ st in
  set_fCurrentTrackID (NoParticleId env) st.

(** [this->GetParentage(trackid)] on the current [fParentIDMap]. *)
Definition callGetParentage (env : Env) (st : State) (trackid : Z) : result Z :=
  match GetParentage (NoParticleId env) (fParentIDMap st) trackid with
  | Some parentid => Ok parentid
  | None => Fault NonTermination
  end.

(** The creation processes of an EM shower, as [preUserTrackingAction]
    looks for them in the process name. *)
Definition isEMShowerProcess (process_name : string) : bool :=
  contains "conv" process_name
  || contains "LowEnConversion" process_name
  || contains "Pair" process_name
  || contains "compt" process_name
  || contains "Compt" process_name
  || contains "Brem" process_name
  || contains "phot" process_name
  || contains "Photo" process_name
  || contains "Ion" process_name
  || contains "annihil" process_name.

(** The end of [preUserTrackingAction], from "This is probably the PDG
    mass" on: create the particle and add it to the list. *)
Definition createParticle (env : Env) (cfg : Config) (track : G4Track.t)
    (trackID pdgCode : Z) (process_name : string) (parentID : Z)
    (st : State) : result State :=
  let mass := (G4Track.GetMass track / GeV env)%float in
  let p := new_MCParticle trackID pdgCode process_name parentID mass in
  let keep0 := match fFilter cfg with None => true | Some _ => false end in
  let st := set_fCurrentParticle (MkParticleInfo (Some (TrackId p)) keep0) st in
  let polarization := G4Track.GetPolarization track in
  let p := SetPolarization
             (MkTVector3 (g4x polarization) (g4y polarization) (g4z polarization))
             p in
  pl ← Add p (fparticleList st);
  Ok (set_fparticleList pl st).

(** The two branches that drop a track share this much:
    [fParentIDMap[trackID] = parentID;
     fCurrentTrackID = -1*this->GetParentage(trackID);] *)
Definition recordParentage (env : Env) (trackID parentID : Z)
    (st : State) : result State :=
  let st := set_fParentIDMap (<[trackID := parentID]> (fParentIDMap st)) st in
  parentid ← callGetParentage env st trackID;
  Ok (set_fCurrentTrackID (-1 * parentid) st).

Definition preUserTrackingAction (env : Env) (cfg : Config)
    (track : G4Track.t) (st : State) : result State :=
  let pdgCode := G4Track.GetPDGEncoding track in
  let trackID := G4Track.GetTrackID track + fTrackIDOffset st in
  let st := set_fCurrentTrackID trackID st in
  let parentID := G4Track.GetParentID track + fTrackIDOffset st in
  let process_name := "unknown"%string in
  match G4Track.GetPrimaryParticle track with
  | Some primaryParticle =>
      if ppi primaryParticle
      then createParticle env cfg track trackID pdgCode "primary" 0 st
      else createParticle env cfg track trackID pdgCode process_name parentID st
  | None =>
      process_name ← deref (G4Track.GetCreatorProcess track);
      if negb (fKeepEMShowerDaughters cfg) && isEMShowerProcess process_name
      then
        st ← recordParentage env trackID parentID st;
        let st :=
          if negb (KnownParticle (fparticleList st) (fCurrentTrackID st))
          then set_fCurrentTrackID (NoParticleId env) st
          else st in
        Ok (set_fCurrentParticle clear st)
      else
        let energy := G4Track.GetKineticEnergy track in
        if (energy <? fenergyCut cfg)%float
        then
          let st := set_fCurrentParticle clear st in
          recordParentage env trackID parentID st
        else
          if negb (KnownParticle (fparticleList st) parentID)
          then
            let st :=
              set_fParentIDMap (<[trackID := parentID]> (fParentIDMap st)) st in
            pid ← callGetParentage env st parentID;
            if negb (KnownParticle (fparticleList st) pid)
            then (* LOG_WARNING; parentID stays *)
              createParticle env cfg track trackID pdgCode process_name parentID st
            else
              createParticle env cfg track trackID pdgCode process_name pid st
          else
            createParticle env cfg track trackID pdgCode process_name parentID st
  end.

(** [fCurrentParticle.particle->...]: the particle behind the pointer. *)
Definition currentParticle (st : State) : result MCParticle :=
  key ← deref (particle (fCurrentParticle st));
  e ← deref (fparticleList st !! key);
  deref (second (key, e)).

(** A write through [fCurrentParticle.particle]. *)
Definition updateCurrentParticle (f : MCParticle -> MCParticle)
    (st : State) : result State :=
  key ← deref (particle (fCurrentParticle st));
  p ← currentParticle st;
  Ok (set_fparticleList (<[key := Live (f p)]> (fparticleList st)) st).

Definition AddPointToCurrentParticle (cfg : Config)
    (pos mom : TLorentzVector) (process : string) (st : State) : result State :=
  st ← updateCurrentParticle (AddTrajectoryPoint pos mom process) st;
  if negb (keep (fCurrentParticle st))
  then
    mustKeep ← deref (fFilter cfg);
    let st := set_mustKeepCalls (pos :: mustKeepCalls st) st in
    Ok (set_fCurrentParticle
          (MkParticleInfo (particle (fCurrentParticle st)) (mustKeep pos)) st)
  else Ok st.

Definition postUserTrackingAction (aTrack : option G4Track.t)
    (st : State) : result State :=
  match particle (fCurrentParticle st) with
  | None => Ok st
  | Some key =>
      if negb (keep (fCurrentParticle st))
      then
        let st := set_fparticleList (Archive key (fparticleList st)) st in
        Ok (set_fCurrentParticle clear st)
      else
        match aTrack with
        | Some track =>
            st ← updateCurrentParticle (SetWeight (G4Track.GetWeight track)) st;
            process ← deref (G4Track.GetStepProcess track);
            updateCurrentParticle (SetEndProcess process) st
        | None => Ok st
        end
  end.

(** The position and the momentum of a step point in cm, ns and GeV. *)
Definition fourPos (env : Env) (sp : G4StepPoint.t) : TLorentzVector :=
  let position := G4StepPoint.GetPosition sp in
  let time := G4StepPoint.GetGlobalTime sp in
  MkTLorentzVector (g4x position / cm env) (g4y position / cm env)
    (g4z position / cm env) (time / ns env).

Definition fourMom (env : Env) (sp : G4StepPoint.t) : TLorentzVector :=
  let momentum := G4StepPoint.GetMomentum sp in
  let energy := G4StepPoint.GetTotalEnergy sp in
  MkTLorentzVector (g4x momentum / GeV env) (g4y momentum / GeV env)
    (g4z momentum / GeV env) (energy / GeV env).

(** The "temporary fix" at the head of [userSteppingAction]: the step
    as the engine sees it afterwards. *)
Definition fixPhotonTime (step : G4Step.t) : G4Step.t :=
  let globalTime := G4Track.GetGlobalTime (G4Step.GetTrack step) in
  let velocity_G4 := G4Track.GetVelocity (G4Step.GetTrack step) in
  let velocity_step :=
    (G4Step.GetStepLength step / G4Step.GetDeltaTime step)%float in
  if (G4Track.GetPDGEncoding (G4Step.GetTrack step) =? 0)
     && (0.0001 <? PrimFloat.abs (velocity_G4 - velocity_step))%float
  then
    G4Step.SetPostGlobalTime
      (globalTime - G4Step.GetDeltaTime step
       + G4Step.GetStepLength step / velocity_G4)%float
      step
  else step.

(** [userSteppingAction] returns the state of the service and the step,
    which it may have written to. *)
Definition userSteppingAction (env : Env) (cfg : Config)
    (step : G4Step.t) (st : State) : result (State * G4Step.t) :=
  if negb (hasParticle (fCurrentParticle st)) then Ok (st, step)
  else
    let st :=
      set_globals
        (G4Track.GetGlobalTime (G4Step.GetTrack step))
        (G4Track.GetVelocity (G4Step.GetTrack step))
        (G4Step.GetStepLength step / G4Step.GetDeltaTime step)%float
        st in
    let step := fixPhotonTime step in
    p ← currentParticle st;
    st ← (if (NumberTrajectoryPoints p =? 0)%nat
          then
            let preStepPoint := G4Step.GetPreStepPoint step in
            AddPointToCurrentParticle cfg
              (fourPos env preStepPoint) (fourMom env preStepPoint) "Start" st
          else Ok st);
    process ← deref (G4StepPoint.GetProcessDefinedStep (G4Step.GetPostStepPoint step));
    let ignoreProcess :=
      contains "LArVoxel" process || contains "OpDetReadout" process in
    if fstoreTrajectories cfg && negb ignoreProcess
    then
      let postStepPoint := G4Step.GetPostStepPoint step in
      st ← AddPointToCurrentParticle cfg
             (fourPos env postStepPoint) (fourMom env postStepPoint) process st;
      Ok (st, step)
    else Ok (st, step).

(** ** End of the event *)

(** [UpdateDaughterInformation::operator()] on one entry of the list. *)
Definition UpdateDaughterInformation (particleListEntry : Z * slot)
    (particleList : ParticleList) : result ParticleList :=
  let particleID := particleListEntry.1 in
  parentID ← GetMotherOf particleList particleID;
  if parentID <=? 0 then Ok particleList
  else
    match particleList !! parentID with
    | None => Ok particleList                (* an orphan *)
    | Some (Archived _) => Ok particleList   (* particle archived *)
    | Some (Live parent) =>
        Ok (<[parentID := Live (AddDaughter particleID parent)]> particleList)
    end.

(** [std::for_each(first, last, f)] with a functor that writes to the list. *)
Fixpoint for_each (range : list (Z * slot))
    (f : Z * slot -> ParticleList -> result ParticleList)
    (pl : ParticleList) : result ParticleList :=
  match range with
  | [] => Ok pl
  | e :: range' => pl ← f e pl; for_each range' f pl
  end.

(** The daughter-linking pass of [endOfEventAction]:
    [std::for_each(fparticleList->begin(), fparticleList->end(),
    updateDaughterInformation)]. *)
Definition linkDaughters (pl : ParticleList) : result ParticleList :=
  for_each (entries pl) UpdateDaughterInformation pl.

(** The loop of [GetList] and [YieldList] over the keys of the list. *)
Definition highestID_loop (range : list (Z * slot)) (highestID : Z) : Z :=
  fold_left (fun highestID pn => if highestID <? pn.1 then pn.1 else highestID)
    range highestID.

Definition advanceTrackIDOffset (st : State) : State :=
  let highestID := highestID_loop (entries (fparticleList st)) 0 in
  if negb (size (fparticleList st) =? 0)%nat
  then set_fTrackIDOffset (highestID + 1) st
  else st.


(** [YieldList] returns the list by move: the member is left empty. *)
Definition YieldList (st : State) : ParticleList * State :=
  let st := advanceTrackIDOffset st in
  (fparticleList st, set_fparticleList ∅ st).

(** The [while] loop of [endOfEventAction] for one truth record [mct].
    [iPartPair] is the iterator, given by what is left of the list from
    its position on ([[]] is [particleList.end()]). The body does not move
    the iterator. *)
Fixpoint drain_loop (env : Env) (fuel : nat) (mct : MCTruthPtr)
    (iPartPair : list (Z * slot)) (particleList : ParticleList)
    (st : State) : result (ParticleList * State) :=
  match iPartPair with
  | [] => Ok (particleList, st)
  | e :: _ =>
      match fuel with
      | O => Fault NonTermination
      | S fuel' =>
          e' ← deref (particleList !! e.1);
          p ← deref (second (e.1, e'));
          let particleList := <[e.1 := Live (moved_from env p)]> particleList in
          let col := partCol_ st ++ [p] in
          let mcp_ptr := (length col - 1)%nat in
          let st := set_outputs col (tpassn_ st ++ [(mct, mcp_ptr)]) st in
          drain_loop env fuel' mct iPartPair particleList st
      end
  end.

(** The loop over the truth records of one handle. *)
Fixpoint truth_loop (env : Env) (fuel : nat) (mcl : nat) (ms : list nat)
    (particleList : ParticleList) (st : State) : result (ParticleList * State) :=
  match ms with
  | [] => Ok (particleList, st)
  | m :: ms' =>
      r ← drain_loop env fuel (mcl, m) (entries particleList) particleList st;
      truth_loop env fuel mcl ms' r.1 r.2
  end.

(** The loop over the handles [mclists]; a handle is given by the number
    of truth records it holds. *)
Fixpoint handle_loop (env : Env) (fuel : nat) (mcl : nat) (mclists : list nat)
    (particleList : ParticleList) (st : State) : result (ParticleList * State) :=
  match mclists with
  | [] => Ok (particleList, st)
  | size_mcl :: mclists' =>
      r ← truth_loop env fuel mcl (seq 0 size_mcl) particleList st;
      handle_loop env fuel (S mcl) mclists' r.1 r.2
  end.

(** [endOfEventAction]; [mclists] is what [evt->getManyByType] finds and
    [fuel] bounds each run of the [while] loop. *)
Definition endOfEventAction (env : Env) (fuel : nat) (mclists : list nat)
    (st : State) : result State :=
  let st := set_outputs [] [] st in
  pl ← linkDaughters (fparticleList st);
  let st := set_fparticleList pl st in
  let '(particleList, st) := YieldList st in
  r ← handle_loop env fuel 0 mclists particleList st;
  Ok r.2.

(** ** Sequences of callbacks *)

(** The callbacks the engine issues between the begin and the end of an
    event. *)
Inductive callback : Type :=
| PreTrack (track : G4Track.t)
| Step (step : G4Step.t)
| PostTrack (aTrack : option G4Track.t).

Definition run_callback (env : Env) (cfg : Config) (c : callback)
    (st : State) : result State :=
  match c with
  | PreTrack track => preUserTrackingAction env cfg track st
  | Step step => r ← userSteppingAction env cfg step st; Ok r.1
  | PostTrack aTrack => postUserTrackingAction aTrack st
  end.

Fixpoint run_callbacks (env : Env) (cfg : Config) (cs : list callback)
    (st : State) : result State :=
  match cs with
  | [] => Ok st
  | c :: cs' => st ← run_callback env cfg c st; run_callbacks env cfg cs' st
  end.

(** The callbacks of one track after its entry. *)
Definition within_track (c : callback) : Prop :=
  match c with
  | PreTrack _ => False
  | Step _ | PostTrack _ => True
  end.

(** ** Reading the list *)

(** The daughters recorded for the particle under [k], none where there
    is no live particle. *)
Definition daughters_of (pl : ParticleList) (k : Z) : gset Z :=
  match pl !! k with
  | Some (Live p) => Daughters p
  | _ => ∅
  end.

(** An entry without its daughters. *)
Definition skeleton (s : slot) : slot :=
  match s with
  | Live p =>
      Live (MkMCParticle (TrackId p) (PdgCode p) (Process p) (Mother p)
              (Mass p) (Polarization p) (Weight p) (EndProcess p)
              (Trajectory p) ∅)
  | Archived mother => Archived mother
  end.

(** ** Notions for the statements *)

(** The current particle is in the list, alive, under key [key]. *)
Definition current_is (st : State) (key : Z) (p : MCParticle) : Prop :=
  particle (fCurrentParticle st) = Some key
  /\ fparticleList st !! key = Some (Live p).

(** A filter is there whenever the decision is still open. *)
Definition filter_ready (cfg : Config) (st : State) : Prop :=
  keep (fCurrentParticle st) = false -> is_Some (fFilter cfg).

(** The answer of the filter, where there is one. *)
Definition mustKeep (cfg : Config) (pos : TLorentzVector) : bool :=
  match fFilter cfg with
  | Some f => f pos
  | None => false
  end.

(** The points a step adds to the trajectory of the current particle:
    the start point, from the pre-step point, where the trajectory is
    empty; then the post-step point of the step as [fixPhotonTime] leaves
    it, unless trajectories are not stored or the process is one of the
    readout processes. *)
Definition step_points (env : Env) (cfg : Config) (step : G4Step.t)
    (process : string) (p : MCParticle) : list TrajectoryPoint :=
  let step' := fixPhotonTime step in
  (if (NumberTrajectoryPoints p =? 0)%nat
   then [(fourPos env (G4Step.GetPreStepPoint step'),
          fourMom env (G4Step.GetPreStepPoint step'), "Start"%string)]
   else [])
  ++
  (if fstoreTrajectories cfg
      && negb (contains "LArVoxel" process || contains "OpDetReadout" process)
   then [(fourPos env (G4Step.GetPostStepPoint step'),
          fourMom env (G4Step.GetPostStepPoint step'), process)]
   else []).

(** The keep decision and the record of the filter's consultations. *)
Definition decision (st : State) : bool * list TLorentzVector :=
  (keep (fCurrentParticle st), mustKeepCalls st).

(** [pl] is [pl0] up to the daughters of its particles. *)
Definition same_skeleton (pl0 pl : ParticleList) : Prop :=
  skeleton <$> pl = skeleton <$> pl0.

(** ** Example inputs *)

(** [sim::NoParticleId] is [std::numeric_limits<int>::min()]. *)
Definition NoParticleId_value : Z := -2147483648.

(** A parent map with the chain 3 -> 2 -> 1. *)
Definition example_chain : ParentIDMap := <[3 := 2]> (<[2 := 1]> ∅).

(** A parent map with the cycle 1 -> 2 -> 1. *)
Definition example_cycle : ParentIDMap := <[1 := 2]> (<[2 := 1]> ∅).

(** The containers of a moved-from particle are empty. *)
Definition example_moved_from (p : MCParticle) : MCParticle :=
  MkMCParticle (TrackId p) (PdgCode p) EmptyString (Mother p) (Mass p)
    (Polarization p) (Weight p) EmptyString [] ∅.

(** The CLHEP units: millimetre, nanosecond and MeV are 1. *)
Definition example_env : Env :=
  MkEnv NoParticleId_value 10 1 1000 example_moved_from.

(** No energy cut, trajectories stored, EM-shower daughters dropped. *)
Definition example_cfg_dropEM : Config := MkConfig 0 true false None.

(** An energy cut of 0.001, EM-shower daughters kept. *)
Definition example_cfg_cut : Config := MkConfig 0.001 true true None.

(** The state at the begin of the first event of a run. *)
Definition example_st0 : State :=
  MkState NoParticleId_value 0 clear ∅ ∅ [] [] 0 0 0 [].

Definition example_origin : G4ThreeVector := MkG4ThreeVector 0 0 0.

(** A primary muon, track 1, with a kinetic energy of 0.0005. *)
Definition example_primary : G4Track.t :=
  G4Track.Mk 1 0 13 (Some (MkG4PrimaryParticle true)) None
    0.0005 105.66 example_origin 1 0 0 (Some "Decay"%string).


(** A neutron of kinetic energy 0.0005, track 2, daughter of track 1. *)
Definition example_slow : G4Track.t :=
  G4Track.Mk 2 1 2112 None (Some "muMinusCaptureAtRest"%string)
    0.0005 939.565 example_origin 1 0 0 (Some "nCapture"%string).

(** A proton of kinetic energy 20, track 3, daughter of track 2. *)
Definition example_grandchild : G4Track.t :=
  G4Track.Mk 3 2 2212 None (Some "neutronInelastic"%string)
    20 938.272 example_origin 1 0 0 (Some "hIoni"%string).

(** A secondary without a creator process. *)
Definition example_no_creator : G4Track.t :=
  G4Track.Mk 2 1 11 None None
    5 0.511 example_origin 1 0 0 (Some "eIoni"%string).

(** The state [f st] where [f] succeeds, [st] where it does not. *)
Definition after (f : State -> result State) (st : State) : State :=
  match f st with
  | Ok st' => st'
  | Fault _ => st
  end.

(** The state once the primary of the example has entered. *)
Definition example_st1 (cfg : Config) : State :=
  after (preUserTrackingAction example_env cfg example_primary) example_st0.

(** An optical photon (PDG code 0), track 1, entered as a primary; the
    track has velocity 1 and is at time 10 after the step. *)
Definition example_photon : G4Track.t :=
  G4Track.Mk 1 0 0 (Some (MkG4PrimaryParticle true)) None
    0.000003 0 example_origin 1 10 1 (Some "OpAbsorption"%string).

(** Its first step: length 2 in a time of 1, from time 9 to time 10 as
    the engine has it. *)
Definition example_photon_step : G4Step.t :=
  G4Step.Mk example_photon 2 1
    (G4StepPoint.Mk example_origin 9 (MkG4ThreeVector 0.000003 0 0)
       0.000003 None)
    (G4StepPoint.Mk (MkG4ThreeVector 20 0 0) 10 (MkG4ThreeVector 0.000003 0 0)
       0.000003 (Some "OpAbsorption"%string)).

(** The state once the photon has entered. *)
Definition example_st_photon (cfg : Config) : State :=
  after (preUserTrackingAction example_env cfg example_photon) example_st0.

(** A filter that keeps what comes beyond x = 1 cm, and a configuration
    with it. *)
Definition example_filter (pos : TLorentzVector) : bool := (1 <? lvX pos)%float.

Definition example_cfg_filter : Config :=
  MkConfig 0 true true (Some example_filter).

(** A second step of the photon, back towards the origin. *)
Definition example_photon_step2 : G4Step.t :=
  G4Step.Mk example_photon 2 1
    (G4StepPoint.Mk (MkG4ThreeVector 20 0 0) 10 (MkG4ThreeVector 0.000003 0 0)
       0.000003 None)
    (G4StepPoint.Mk (MkG4ThreeVector 5 0 0) 11 (MkG4ThreeVector 0.000003 0 0)
       0.000003 (Some "OpAbsorption"%string)).

(** The times of the points of the particle under [key]. *)
Definition trajectory_times (st : State) (key : Z) : list float :=
  match fparticleList st !! key with
  | Some (Live p) => map (fun pt => lvT pt.1.1) (Trajectory p)
  | _ => []
  end.

(** A particle of the examples with its id and its mother. *)
Definition example_particle (trackID mother : Z) : MCParticle :=
  new_MCParticle trackID 11 "Decay" mother 0.

(** A list at the end of an event: 1 is a primary; 2, a daughter of 1, is
    archived; 3 is a daughter of 1, 4 a daughter of the archived 2 and 5
    a daughter of 9, which is not in the list. *)
Definition example_list : ParticleList :=
  <[5 := Live (example_particle 5 9)]>
    (<[4 := Live (example_particle 4 2)]>
       (<[3 := Live (example_particle 3 1)]>
          (Archive 2
             (<[2 := Live (example_particle 2 1)]>
                (<[1 := Live (example_particle 1 0)]> ∅))))).

(** The state once the slow neutron of the example has been dropped. *)
Definition example_st2 : State :=
  after (preUserTrackingAction example_env example_cfg_cut example_slow)
    (example_st1 example_cfg_cut).

(** ** More of the service *)

(** [isDropped]: a null pointer, or a particle without trajectory points. *)
Definition isDropped (p : option MCParticle) : bool :=
  match p with
  | None => true
  | Some p =>
      match Trajectory p with
      | [] => true
      | _ :: _ => false
      end
  end.






(** ** More notions for the statements *)



(** [p'] is [p] with points added to its trajectory. *)
Definition trajectory_extended (p p' : MCParticle) : Prop :=
  TrackId p' = TrackId p /\ PdgCode p' = PdgCode p
  /\ Process p' = Process p /\ Mother p' = Mother p /\ Mass p' = Mass p
  /\ Polarization p' = Polarization p /\ Weight p' = Weight p
  /\ EndProcess p' = EndProcess p /\ Daughters p' = Daughters p
  /\ exists points, Trajectory p' = Trajectory p ++ points.

(** The members that only the entry of a track and the end of an event
    write. *)
Definition bookkeeping (st : State)
    : Z * Z * ParentIDMap * list MCParticle * list (MCTruthPtr * nat) :=
  (fCurrentTrackID st, fTrackIDOffset st, fParentIDMap st,
   partCol_ st, tpassn_ st).

(** ** More example inputs *)

(** The photon of the examples as it stands in the list after its entry. *)
Definition example_photon_particle : MCParticle :=
  SetPolarization (MkTVector3 0 0 0) (new_MCParticle 1 0 "primary" 0 0).

(** No energy cut, trajectories not stored. *)
Definition example_cfg_nostore : Config := MkConfig 0 false true None.

(** A muon, track 1, whose primary particle has no
    [PrimaryParticleInformation]. *)
Definition example_primary_noinfo : G4Track.t :=
  G4Track.Mk 1 0 13 (Some (MkG4PrimaryParticle false)) None
    0.0005 105.66 example_origin 1 0 0 (Some "Decay"%string).



(** * Properties *)

(** ** The result monad *)

Lemma bind_Ok {A B : Type} (r : result A) (k : A -> result B) (b : B) :
  r ≫= k = Ok b -> exists a, r = Ok a /\ k a = Ok b.
Proof. destruct r as [a|f]; simpl; [eauto | discriminate]. Qed.

Lemma deref_Ok {A : Type} (p : option A) (a : A) : deref p = Ok a -> p = Some a.
Proof. destruct p; simpl; congruence. Qed.

(** ** Parentage *)

Section ParentageFacts.
Variable NoId : Z.
Variable m : ParentIDMap.

Lemma follow_add (a b : nat) (k : Z) :
  follow m (a + b) k = follow m a k ≫= follow m b.
Proof.
  revert k. induction a as [|a IH]; intros k; simpl; [done|].
  destruct (m !! k); [apply IH | done].
Qed.


Lemma trail_lookup (n i : nat) (k x : Z) :
  trail m n k !! i = Some x -> follow m i k = Some x /\ is_Some (m !! x).
Proof.
  revert i k. induction n as [|n IH]; intros i k; simpl; [done|].
  destruct (m !! k) as [v|] eqn:Hk; [|done].
  destruct i as [|i]; simpl.
  - intros [= <-]. split; [done | by rewrite Hk].
  - rewrite Hk. apply IH.
Qed.

Lemma trail_length (n : nat) (k : Z) : (length (trail m n k) <= n)%nat.
Proof.
  revert k. induction n as [|n IH]; intros k; simpl; [lia|].
  destruct (m !! k); simpl; [specialize (IH z) | ]; lia.
Qed.

(** A trail shorter than asked for has reached the end of its chain. *)
Lemma trail_short (n : nat) (k : Z) :
  (length (trail m n k) < n)%nat ->
  exists r, follow m (length (trail m n k)) k = Some r /\ m !! r = None.
Proof.
  revert k. induction n as [|n IH]; intros k; simpl; [lia|].
  destruct (m !! k) as [v|] eqn:Hk; simpl.
  - intros Hlt. rewrite Hk. apply IH. lia.
  - intros _. by exists k.
Qed.

Lemma trail_NoDup (n : nat) (k : Z) : no_cycle m -> NoDup (trail m n k).
Proof.
  intros Hnc. apply NoDup_alt. intros i j x Hi Hj.
  apply trail_lookup in Hi as [Hi _]. apply trail_lookup in Hj as [Hj _].
  destruct (decide (i = j)) as [|Hne]; [done|exfalso].
  assert (Hcyc : forall a b, (a < b)%nat ->
            follow m a k = Some x -> follow m b k = Some x -> False).
  { intros a b Hab Ha Hb. apply (Hnc x (b - a)%nat); [lia|].
    replace b with (a + (b - a))%nat in Hb by lia.
    rewrite follow_add, Ha in Hb. exact Hb. }
  destruct (decide (i < j)%nat); [apply (Hcyc i j) | apply (Hcyc j i)];
    try done; lia.
Qed.

(** Pairwise different keys of the map: no more than its size. *)
Lemma keys_bounded (l : list Z) :
  NoDup l -> (forall x, x ∈ l -> is_Some (m !! x)) -> (length l <= size m)%nat.
Proof.
  intros Hnd Hin. rewrite <- (size_dom (D := gset Z)).
  unfold size, set_size. simpl.
  apply submseteq_length, NoDup_submseteq; [done|].
  intros x Hx. by apply elem_of_elements, elem_of_dom, Hin.
Qed.

Lemma trail_in_map (n : nat) (k x : Z) : x ∈ trail m n k -> is_Some (m !! x).
Proof.
  intros Hx. apply list_elem_of_lookup in Hx as [i Hi].
  by apply trail_lookup in Hi as [_ Hx].
Qed.

Lemma trail_bounded (n : nat) (k : Z) :
  no_cycle m -> (length (trail m n k) <= size m)%nat.
Proof.
  intros Hnc. apply keys_bounded; [by apply trail_NoDup | apply trail_in_map].
Qed.

(** Without cycles every chain ends after at most [size m] lookups. *)
Lemma chain_ends (k : Z) :
  no_cycle m ->
  exists n r, (n <= size m)%nat /\ follow m n k = Some r /\ m !! r = None.
Proof.
  intros Hnc.
  pose proof (trail_bounded (S (size m)) k Hnc) as Hlen.
  destruct (trail_short (S (size m)) k) as (r & Hr & Hend); [lia|].
  exists (length (trail m (S (size m)) k)), r. done.
Qed.

(** The loop, started at key [k] with [parentid] in hand, along a chain
    of [n] lookups. *)
Lemma GetParentage_loop_follow (n fuel : nat) (k parentid r : Z) :
  follow m n k = Some r -> m !! r = None -> (n <= fuel)%nat ->
  GetParentage_loop fuel m parentid (m !! k)
  = Some (if decide (n = 0%nat) then parentid else r).
Proof.
  revert fuel k parentid. induction n as [|n IH]; intros fuel k parentid; simpl.
  - intros [= ->] Hend _. rewrite Hend. by destruct fuel.
  - destruct (m !! k) as [v|] eqn:Hk; [|done]. intros Hf Hend Hfuel.
    destruct fuel as [|fuel]; [lia|]. simpl.
    rewrite (IH fuel v v Hf Hend) by lia.
    destruct n; simpl in *; [congruence | done].
Qed.

(** A run of the loop that ends exhibits a chain. *)
Lemma GetParentage_loop_chain (fuel : nat) (k parentid r : Z) :
  GetParentage_loop fuel m parentid (m !! k) = Some r ->
  exists n e, (n <= fuel)%nat /\ follow m n k = Some e /\ m !! e = None
              /\ r = if decide (n = 0%nat) then parentid else e.
Proof.
  revert k parentid. induction fuel as [|fuel IH]; intros k parentid.
  - simpl. destruct (m !! k) eqn:Hk; [done|]. intros [= <-].
    exists 0%nat, k. by simpl.
  - simpl. destruct (m !! k) as [v|] eqn:Hk.
    + intros Hrun. destruct (IH v v Hrun) as (n & e & Hn & Hf & He & ->).
      exists (S n), e. simpl. rewrite Hk. repeat split; [lia|done..|].
      destruct n; simpl in *; congruence.
    + intros [= <-]. exists 0%nat, k. simpl. repeat split; [lia|done..].
Qed.

(** Chains are deterministic: a key has one distance to the end. *)
Lemma follow_end_unique (a b : nat) (k ea eb : Z) :
  follow m a k = Some ea -> m !! ea = None ->
  follow m b k = Some eb -> m !! eb = None -> a = b.
Proof.
  revert b k. induction a as [|a IH]; intros b k; simpl.
  - intros [= ->] Hend. destruct b; simpl; [done|]. by rewrite Hend.
  - destruct (m !! k) as [v|] eqn:Hk; [|done]. intros Ha Hea.
    destruct b; simpl.
    + intros [= ->]. congruence.
    + rewrite Hk. intros Hb Heb. f_equal. eauto.
Qed.

(** The keys on a chain that ends are pairwise different, cycles or not. *)
Lemma ending_chain_bounded (n : nat) (k e : Z) :
  follow m n k = Some e -> m !! e = None -> (n <= size m)%nat.
Proof.
  intros Hf He.
  assert (Hlen : forall j i, follow m j i = Some e -> length (trail m j i) = j).
  { induction j as [|j IH]; intros i; simpl; [done|].
    destruct (m !! i); [|done]. intros Hj. simpl. f_equal. by apply IH. }
  rewrite <- (Hlen n k Hf). apply keys_bounded; [|apply trail_in_map].
  - apply NoDup_alt. intros i j x Hi Hj.
    pose proof (lookup_lt_Some _ _ _ Hi) as Hil.
    pose proof (lookup_lt_Some _ _ _ Hj) as Hjl.
    rewrite (Hlen n k Hf) in Hil, Hjl.
    apply trail_lookup in Hi as [Hi _]. apply trail_lookup in Hj as [Hj _].
    assert (Hrest : forall a, (a < n)%nat -> follow m a k = Some x ->
              follow m (n - a) x = Some e).
    { intros a Ha Hax. replace n with (a + (n - a))%nat in Hf by lia.
      rewrite follow_add, Hax in Hf. exact Hf. }
    pose proof (follow_end_unique _ _ _ _ _ (Hrest i Hil Hi) He (Hrest j Hjl Hj) He).
    lia.
Qed.

(** More fuel does not change a result. *)
Lemma GetParentage_fuel_mono (fuel fuel' : nat) (trackid r : Z) :
  GetParentage_fuel NoId fuel m trackid = Some r -> (fuel <= fuel')%nat ->
  GetParentage_fuel NoId fuel' m trackid = Some r.
Proof.
  unfold GetParentage_fuel. intros Hrun Hle.
  destruct (GetParentage_loop_chain _ _ _ _ Hrun) as (n & e & Hn & Hf & He & ->).
  apply GetParentage_loop_follow; [done..|lia].
Qed.

(** [size m] iterations are enough for every run that ends: [GetParentage]
    answers [None] only where no amount of fuel gives an answer. *)
Lemma GetParentage_fuel_bound (fuel : nat) (trackid r : Z) :
  GetParentage_fuel NoId fuel m trackid = Some r ->
  GetParentage NoId m trackid = Some r.
Proof.
  unfold GetParentage, GetParentage_fuel. intros Hrun.
  destruct (GetParentage_loop_chain _ _ _ _ Hrun) as (n & e & Hn & Hf & He & ->).
  apply GetParentage_loop_follow; [done..|].
  by apply (ending_chain_bounded n trackid e).
Qed.

Lemma GetParentage_diverges (trackid : Z) :
  GetParentage NoId m trackid = None ->
  forall fuel, GetParentage_fuel NoId fuel m trackid = None.
Proof.
  intros Hnone fuel.
  destruct (GetParentage_fuel NoId fuel m trackid) as [r|] eqn:Hrun; [|done].
  apply GetParentage_fuel_bound in Hrun. congruence.
Qed.

(** A daughter's id is above its parent's: no cycles. *)
Lemma no_cycle_ordered :
  map_Forall (fun k v => v < k) m -> no_cycle m.
Proof.
  intros Hord.
  assert (Hlt : forall n k r, (0 < n)%nat -> follow m n k = Some r -> r < k).
  { induction n as [|n IH]; intros k r Hn; [lia|]. simpl.
    destruct (m !! k) as [v|] eqn:Hk; [|done]. intros Hf.
    pose proof (Hord k v Hk) as Hvk. simpl in Hvk.
    destruct n; simpl in Hf; [injection Hf as <-; lia|].
    assert (r < v) by (apply (IH v r); [lia|exact Hf]). lia. }
  intros k n Hn Hf. apply Hlt in Hf; lia.
Qed.


End ParentageFacts.

(** C7. If [fParentIDMap] has no cycles, [GetParentage] terminates for
    every [trackid]: the loop runs some [n] iterations, [n] at most the
    number of entries of the map (fuel [n] suffices, less does not), and
    it returns [NoParticleId] when [trackid] is not a key of the map,
    otherwise the last value found on the chain of lookups from [trackid],
    which is a value that is not itself a key. *)
Theorem GetParentage_terminates (NoId : Z) (m : ParentIDMap) (trackid : Z) :
  no_cycle m ->
  exists (n : nat) (r : Z),
    (n <= size m)%nat
    /\ (forall fuel, (n <= fuel)%nat -> GetParentage_fuel NoId fuel m trackid = Some r)
    /\ (forall fuel, (fuel < n)%nat -> GetParentage_fuel NoId fuel m trackid = None)
    /\ GetParentage NoId m trackid = Some r
    /\ ((m !! trackid = None /\ n = 0%nat /\ r = NoId)
        \/ (is_Some (m !! trackid) /\ (0 < n)%nat
            /\ follow m n trackid = Some r /\ m !! r = None)).
Proof.
  intros Hnc. destruct (chain_ends m trackid Hnc) as (n & e & Hn & Hf & He).
  exists n, (if decide (n = 0%nat) then NoId else e).
  assert (Hrun : forall fuel, (n <= fuel)%nat ->
            GetParentage_fuel NoId fuel m trackid
            = Some (if decide (n = 0%nat) then NoId else e)).
  { intros fuel Hfuel. by apply GetParentage_loop_follow. }
  split; [done|]. split; [done|]. split; [|split].
  - intros fuel Hlt.
    destruct (GetParentage_fuel NoId fuel m trackid) as [r|] eqn:Hr; [|done].
    destruct (GetParentage_loop_chain _ _ _ _ _ Hr) as (n' & e' & Hn' & Hf' & He' & _).
    pose proof (follow_end_unique m _ _ _ _ _ Hf He Hf' He'). lia.
  - by apply Hrun.
  - destruct n as [|n]; simpl in *.
    + left. injection Hf as <-. done.
    + right. destruct (m !! trackid) eqn:Hk; [|done].
      repeat split; [by eexists | lia | done | done].
Qed.

(** The chain 3 -> 2 -> 1 of the examples has no cycle. *)
Lemma GetParentage_terminates_witness :
  exists (n : nat) (r : Z),
    (n <= size example_chain)%nat
    /\ (forall fuel, (n <= fuel)%nat ->
          GetParentage_fuel NoParticleId_value fuel example_chain 3 = Some r)
    /\ (forall fuel, (fuel < n)%nat ->
          GetParentage_fuel NoParticleId_value fuel example_chain 3 = None)
    /\ GetParentage NoParticleId_value example_chain 3 = Some r
    /\ ((example_chain !! 3 = None /\ n = 0%nat /\ r = NoParticleId_value)
        \/ (is_Some (example_chain !! 3) /\ (0 < n)%nat
            /\ follow example_chain n 3 = Some r /\ example_chain !! r = None)).
Proof.
  apply (GetParentage_terminates NoParticleId_value example_chain 3).
  apply no_cycle_ordered. unfold example_chain.
  apply map_Forall_insert_2; [lia|].
  apply map_Forall_insert_2; [lia|].
  apply map_Forall_empty.
Defined.

(** The chain of the example: 3 -> 2 -> 1, and 1 is not a key; 7 is not
    a key either. *)
Example GetParentage_chain_example :
  GetParentage NoParticleId_value example_chain 3 = Some 1
  /\ GetParentage NoParticleId_value example_chain 7 = Some NoParticleId_value.
Proof. split; reflexivity. Qed.

(** With a cycle the loop does not end, whatever the fuel. *)
Example GetParentage_cycle_example (fuel : nat) :
  GetParentage_fuel NoParticleId_value fuel example_cycle 1 = None.
Proof. apply GetParentage_diverges. reflexivity. Qed.

(** ** Track entry *)

Section TrackEntry.
Variable env : Env.
Variable cfg : Config.

Lemma callGetParentage_Ok (st : State) (trackid r : Z) :
  GetParentage (NoParticleId env) (fParentIDMap st) trackid = Some r ->
  callGetParentage env st trackid = Ok r.
Proof. unfold callGetParentage. by intros ->. Qed.


Lemma recordParentage_not_NullPointer (trackID parentID : Z) (st : State) :
  recordParentage env trackID parentID st <> Fault NullPointer.
Proof.
  unfold recordParentage, callGetParentage. simpl.
  by destruct (GetParentage _ _ _).
Qed.

Lemma createParticle_not_NullPointer (track : G4Track.t)
    (trackID pdgCode : Z) (process_name : string) (parentID : Z) (st : State) :
  createParticle env cfg track trackID pdgCode process_name parentID st
  <> Fault NullPointer.
Proof.
  unfold createParticle, Add. simpl.
  by destruct (fparticleList st !! trackID).
Qed.

(** What [createParticle] does when the id is new to the list. *)
Lemma createParticle_Ok (track : G4Track.t)
    (trackID pdgCode : Z) (process_name : string) (parentID : Z) (st : State) :
  fparticleList st !! trackID = None ->
  exists p,
    createParticle env cfg track trackID pdgCode process_name parentID st
    = Ok (set_fparticleList (<[trackID := Live p]> (fparticleList st))
            (set_fCurrentParticle
               (MkParticleInfo (Some trackID)
                  (match fFilter cfg with None => true | Some _ => false end))
               st))
    /\ TrackId p = trackID /\ PdgCode p = pdgCode
    /\ Process p = process_name /\ Mother p = parentID
    /\ Trajectory p = [] /\ Daughters p = ∅.
Proof.
  intros Hnew. eexists. unfold createParticle, Add. simpl. rewrite Hnew. simpl.
  repeat split.
Qed.

End TrackEntry.

Section AdmissionFilter.
Variable env : Env.
Variable cfg : Config.
Variable track : G4Track.t.
Variable st : State.

(** The ids of the track once the offset is added. *)
Let trackID : Z := G4Track.GetTrackID track + fTrackIDOffset st.
Let parentID : Z := G4Track.GetParentID track + fTrackIDOffset st.
Let pmap : ParentIDMap := <[trackID := parentID]> (fParentIDMap st).


(** C4, as the code has it. A track with a primary particle that carries
    [PrimaryParticleInformation] is admitted with mother 0 and process
    ["primary"], whatever its energy, [fenergyCut] and
    [fKeepEMShowerDaughters] are: neither the EM-shower test nor the
    energy cut is on its path. (The id must be new to the list, as for
    every track that is added.) *)
Theorem primary_always_admitted (primaryParticle : G4PrimaryParticle) :
  G4Track.GetPrimaryParticle track = Some primaryParticle ->
  ppi primaryParticle = true ->
  fparticleList st !! trackID = None ->
  exists (p : MCParticle) (st' : State),
    preUserTrackingAction env cfg track st = Ok st'
    /\ fparticleList st' = <[trackID := Live p]> (fparticleList st)
    /\ KnownParticle (fparticleList st') trackID = true
    /\ TrackId p = trackID
    /\ Mother p = 0
    /\ Process p = "primary"%string
    /\ particle (fCurrentParticle st') = Some trackID
    /\ fCurrentTrackID st' = trackID
    /\ fParentIDMap st' = fParentIDMap st.
Proof.
  intros Hprim Hppi Hnew.
  unfold preUserTrackingAction. rewrite Hprim, Hppi.
  destruct (createParticle_Ok env cfg track trackID
              (G4Track.GetPDGEncoding track) "primary" 0
              (set_fCurrentTrackID trackID st) Hnew)
    as (p & Hrun & Hid & _ & Hprocess & Hmother & _).
  exists p. eexists. split; [exact Hrun|]. simpl.
  unfold KnownParticle. rewrite lookup_insert_eq. done.
Qed.


(** C10. For a track without a primary particle the creator process is
    dereferenced first of all, with no test of the pointer:
    [preUserTrackingAction] faults on a null pointer exactly when the
    track has no creator process. *)
Theorem creator_process_dereferenced :
  G4Track.GetPrimaryParticle track = None ->
  (preUserTrackingAction env cfg track st = Fault NullPointer
   <-> G4Track.GetCreatorProcess track = None).
Proof.
  intros Hprim. unfold preUserTrackingAction. rewrite Hprim.
  destruct (G4Track.GetCreatorProcess track) as [process_name|]; simpl;
    [|done].
  split; [|done]. intros Hfault. exfalso. revert Hfault.
  destruct (negb (fKeepEMShowerDaughters cfg) && isEMShowerProcess process_name).
  - destruct (recordParentage env _ _ _) eqn:Hrec; simpl; [done|].
    intros [= ->]. by apply recordParentage_not_NullPointer in Hrec.
  - destruct (_ <? _)%float; [apply recordParentage_not_NullPointer|].
    destruct (negb (KnownParticle _ _)); simpl;
      [|apply createParticle_not_NullPointer].
    unfold callGetParentage. simpl. destruct (GetParentage _ _ _); simpl; [|done].
    destruct (negb (KnownParticle _ _)); apply createParticle_not_NullPointer.
Qed.

End AdmissionFilter.

(** ** Track entry on the examples *)

(** The process names that count as EM-shower processes: any name with
    one of the markers in it. *)
Example isEMShowerProcess_examples :
  isEMShowerProcess "compt" = true
  /\ isEMShowerProcess "eIoni" = true
  /\ isEMShowerProcess "hIoni" = true
  /\ isEMShowerProcess "eBrem" = true
  /\ isEMShowerProcess "conv" = true
  /\ isEMShowerProcess "annihil" = true
  /\ isEMShowerProcess "photonNuclear" = true
  /\ isEMShowerProcess "Decay" = false
  /\ isEMShowerProcess "muMinusCaptureAtRest" = false
  /\ isEMShowerProcess "neutronInelastic" = false
  /\ isEMShowerProcess "" = false.
Proof. repeat split. Qed.

Lemma example_st1_list (cfg : Config) :
  exists p, fparticleList (example_st1 cfg) = <[1 := Live p]> ∅
            /\ Mother p = 0 /\ Process p = "primary"%string
            /\ fParentIDMap (example_st1 cfg) = ∅
            /\ fTrackIDOffset (example_st1 cfg) = 0.
Proof. eexists. repeat split. Qed.




(** The primary muon of the examples, under an energy cut above its
    energy. *)
Lemma primary_always_admitted_witness :
  exists (p : MCParticle) (st' : State),
    preUserTrackingAction example_env example_cfg_cut example_primary
      example_st0 = Ok st'
    /\ fparticleList st' = <[1 := Live p]> ∅
    /\ Mother p = 0 /\ Process p = "primary"%string.
Proof.
  destruct (primary_always_admitted example_env example_cfg_cut
              example_primary example_st0 (MkG4PrimaryParticle true))
    as (p & st' & Hrun & Hlist & _ & _ & Hmother & Hprocess & _);
    [reflexivity | reflexivity | reflexivity |].
  exists p, st'. repeat split; assumption.
Defined.

(** Against C4 as the spec words it: an energy cut of 0.001 is
    configured and the primary has a kinetic energy of 0.0005, below the
    cut; the primary is in the list all the same, while a secondary of
    that energy is not. *)
Lemma primary_below_energy_cut_counterexample :
  (G4Track.GetKineticEnergy example_primary <? fenergyCut example_cfg_cut)%float
  = true
  /\ (exists st' : State,
        preUserTrackingAction example_env example_cfg_cut example_primary
          example_st0 = Ok st'
        /\ KnownParticle (fparticleList st') 1 = true)
  /\ (exists st' : State,
        preUserTrackingAction example_env example_cfg_cut example_slow
          (example_st1 example_cfg_cut) = Ok st'
        /\ KnownParticle (fparticleList st') 2 = false).
Proof.
  split; [reflexivity|].
  split; eexists; (split; [vm_compute; reflexivity|reflexivity]).
Qed.


(** The scenario of C5 run in full: track 1 is a primary, track 2 falls
    below the cut, track 3 names track 2 as its parent and is added with
    mother 1. *)
Example dropped_parent_resolved :
  exists (st3 : State) (p : MCParticle),
    run_callbacks example_env example_cfg_cut
      [PreTrack example_primary; PreTrack example_slow;
       PreTrack example_grandchild] example_st0 = Ok st3
    /\ fparticleList st3 !! 3 = Some (Live p)
    /\ Mother p = 1
    /\ fparticleList st3 !! 2 = None
    /\ fParentIDMap st3 = <[3 := 2]> (<[2 := 1]> ∅).
Proof.
  eexists. eexists. split; [vm_compute; reflexivity|].
  split; [vm_compute; reflexivity|]. repeat split.
Qed.

(** The secondary without a creator process. *)
Lemma creator_process_dereferenced_witness :
  preUserTrackingAction example_env example_cfg_cut example_no_creator
    (example_st1 example_cfg_cut) = Fault NullPointer
  <-> G4Track.GetCreatorProcess example_no_creator = None.
Proof.
  apply (creator_process_dereferenced example_env example_cfg_cut
           example_no_creator (example_st1 example_cfg_cut)).
  reflexivity.
Defined.

Example no_creator_faults :
  preUserTrackingAction example_env example_cfg_cut example_no_creator
    (example_st1 example_cfg_cut) = Fault NullPointer.
Proof. reflexivity. Qed.

(** ** Trajectory points and the keep decision *)

Section Stepping.
Variable env : Env.
Variable cfg : Config.

Lemma currentParticle_Ok (st : State) (key : Z) (p : MCParticle) :
  current_is st key p -> currentParticle st = Ok p.
Proof. intros [Hkey Hp]. unfold currentParticle. by rewrite Hkey; simpl; rewrite Hp. Qed.

Lemma updateCurrentParticle_Ok (f : MCParticle -> MCParticle)
    (st : State) (key : Z) (p : MCParticle) :
  current_is st key p ->
  updateCurrentParticle f st
  = Ok (set_fparticleList (<[key := Live (f p)]> (fparticleList st)) st).
Proof.
  intros Hcur. unfold updateCurrentParticle.
  rewrite (currentParticle_Ok st key p Hcur). destruct Hcur as [-> _]. done.
Qed.

(** [AddPointToCurrentParticle]: the point is appended; the filter is
    asked, about the position just appended, exactly when the decision
    is still open, and its answer becomes the decision. *)
Lemma AddPointToCurrentParticle_Ok (pos mom : TLorentzVector)
    (process : string) (st : State) (key : Z) (p : MCParticle) :
  current_is st key p -> filter_ready cfg st ->
  exists st',
    AddPointToCurrentParticle cfg pos mom process st = Ok st'
    /\ current_is st' key (AddTrajectoryPoint pos mom process p)
    /\ fparticleList st'
       = <[key := Live (AddTrajectoryPoint pos mom process p)]> (fparticleList st)
    /\ keep (fCurrentParticle st')
       = keep (fCurrentParticle st) || mustKeep cfg pos
    /\ mustKeepCalls st'
       = (if keep (fCurrentParticle st) then mustKeepCalls st
          else pos :: mustKeepCalls st)
    /\ fTrackIDOffset st' = fTrackIDOffset st
    /\ fParentIDMap st' = fParentIDMap st.
Proof.
  intros Hcur Hready. unfold AddPointToCurrentParticle.
  rewrite (updateCurrentParticle_Ok _ st key p Hcur). simpl.
  destruct Hcur as [Hkey Hp]. unfold filter_ready, mustKeep in *.
  destruct (keep (fCurrentParticle st)) eqn:Hkeep; simpl.
  - eexists. split; [reflexivity|]. simpl. rewrite Hkeep.
    repeat split; [done | simpl; by rewrite lookup_insert_eq].
  - destruct (Hready eq_refl) as [f Hf]. rewrite Hf. simpl.
    eexists. split; [reflexivity|]. simpl.
    repeat split; [done | simpl; by rewrite lookup_insert_eq].
Qed.

(** Whatever [AddPointToCurrentParticle] answers, a decision to keep
    stands and the filter is not asked again. *)
Lemma AddPointToCurrentParticle_keep (pos mom : TLorentzVector)
    (process : string) (st st' : State) :
  AddPointToCurrentParticle cfg pos mom process st = Ok st' ->
  keep (fCurrentParticle st) = true ->
  keep (fCurrentParticle st') = true /\ mustKeepCalls st' = mustKeepCalls st.
Proof.
  unfold AddPointToCurrentParticle. intros Hrun Hkeep.
  apply bind_Ok in Hrun as (st1 & Hupd & Hrun).
  unfold updateCurrentParticle in Hupd.
  apply bind_Ok in Hupd as (key & _ & Hupd).
  apply bind_Ok in Hupd as (p & _ & [= <-]).
  simpl in Hrun. rewrite Hkeep in Hrun. simpl in Hrun.
  injection Hrun as <-. done.
Qed.

Lemma AddTrajectoryPoint_Trajectory (pos mom : TLorentzVector)
    (process : string) (p : MCParticle) :
  Trajectory (AddTrajectoryPoint pos mom process p)
  = Trajectory p ++ [(pos, mom, process)].
Proof. reflexivity. Qed.

(** [userSteppingAction] on a live current particle: it succeeds, hands
    back the step as [fixPhotonTime] leaves it, and appends [step_points]
    to the trajectory. *)
Lemma userSteppingAction_Ok (step : G4Step.t) (process : string)
    (st : State) (key : Z) (p : MCParticle) :
  current_is st key p -> filter_ready cfg st ->
  G4StepPoint.GetProcessDefinedStep (G4Step.GetPostStepPoint step)
  = Some process ->
  exists st' p',
    userSteppingAction env cfg step st = Ok (st', fixPhotonTime step)
    /\ current_is st' key p'
    /\ Trajectory p' = Trajectory p ++ step_points env cfg step process p
    /\ Mother p' = Mother p /\ TrackId p' = TrackId p
    /\ dom (fparticleList st') = dom (fparticleList st).
Proof.
  intros Hcur Hready Hproc. unfold userSteppingAction, hasParticle.
  pose proof Hcur as [Hkey Hp]. rewrite Hkey. simpl.
  set (st1 := set_globals _ _ _ st).
  assert (Hcur1 : current_is st1 key p) by done.
  assert (Hready1 : filter_ready cfg st1) by done.
  rewrite (currentParticle_Ok st1 key p Hcur1). simpl.
  assert (Hproc' : G4StepPoint.GetProcessDefinedStep
                     (G4Step.GetPostStepPoint (fixPhotonTime step))
                   = Some process).
  { unfold fixPhotonTime. by destruct (_ && _). }
  assert (Hdom : forall (l : ParticleList) q q', l !! key = Some (Live q') ->
            dom (<[key := Live q]> l) = dom l).
  { intros l q q' Hl. apply dom_insert_lookup_L. by rewrite Hl. }
  unfold step_points.
  destruct (NumberTrajectoryPoints p =? 0)%nat.
  - destruct (AddPointToCurrentParticle_Ok
                (fourPos env (G4Step.GetPreStepPoint (fixPhotonTime step)))
                (fourMom env (G4Step.GetPreStepPoint (fixPhotonTime step)))
                "Start" st1 key p Hcur1 Hready1)
      as (st2 & -> & Hcur2 & Hl2 & Hk2 & _).
    simpl. rewrite Hproc'. simpl.
    assert (Hready2 : filter_ready cfg st2).
    { intros Hk. rewrite Hk2 in Hk. apply orb_false_iff in Hk as [Hk _].
      by apply Hready1. }
    destruct (fstoreTrajectories cfg && _).
    + destruct (AddPointToCurrentParticle_Ok
                  (fourPos env (G4Step.GetPostStepPoint (fixPhotonTime step)))
                  (fourMom env (G4Step.GetPostStepPoint (fixPhotonTime step)))
                  process st2 key _ Hcur2 Hready2)
        as (st3 & -> & Hcur3 & Hl3 & _).
      simpl. eexists _, _. split; [reflexivity|]. split; [exact Hcur3|].
      rewrite !AddTrajectoryPoint_Trajectory, <- app_assoc.
      repeat split. rewrite Hl3, Hl2.
      erewrite Hdom; [by eapply Hdom | by rewrite lookup_insert_eq].
    + eexists _, _. split; [reflexivity|]. split; [exact Hcur2|].
      rewrite AddTrajectoryPoint_Trajectory.
      repeat split. rewrite Hl2. by eapply Hdom.
  - simpl. rewrite Hproc'. simpl.
    destruct (fstoreTrajectories cfg && _).
    + destruct (AddPointToCurrentParticle_Ok
                  (fourPos env (G4Step.GetPostStepPoint (fixPhotonTime step)))
                  (fourMom env (G4Step.GetPostStepPoint (fixPhotonTime step)))
                  process st1 key p Hcur1 Hready1)
        as (st3 & -> & Hcur3 & Hl3 & _).
      simpl. eexists _, _. split; [reflexivity|]. split; [exact Hcur3|].
      rewrite AddTrajectoryPoint_Trajectory.
      repeat split. rewrite Hl3. by eapply Hdom.
    + eexists _, _. split; [reflexivity|]. split; [exact Hcur1|].
      rewrite app_nil_r. repeat split.
Qed.

End Stepping.

(** ** What the callbacks leave alone *)

(** Take the successful runs among the hypotheses apart: binds,
    dereferences and tests. *)
Ltac invert_runs :=
  repeat match goal with
    | H : Ok _ = Ok _ |- _ => injection H as H; try subst
    | H : Fault _ = Ok _ |- _ => discriminate H
    | H : deref _ = Ok _ |- _ => apply deref_Ok in H
    | H : (_ ≫= _) = Ok _ |- _ =>
        let a := fresh "a" in
        let Ha := fresh "Ha" in
        apply bind_Ok in H as (a & Ha & H)
    | H : (if ?b then _ else _) = Ok _ |- _ => destruct b eqn:?
    | H : (match ?o with Some _ => _ | None => _ end) = Ok _ |- _ =>
        destruct o eqn:?
    end.

Section Frames.
Variable env : Env.
Variable cfg : Config.

Lemma updateCurrentParticle_frame (f : MCParticle -> MCParticle)
    (st st' : State) :
  updateCurrentParticle f st = Ok st' ->
  fTrackIDOffset st' = fTrackIDOffset st
  /\ fCurrentParticle st' = fCurrentParticle st
  /\ mustKeepCalls st' = mustKeepCalls st.
Proof.
  unfold updateCurrentParticle. intros Hrun. by invert_runs.
Qed.



Lemma userSteppingAction_keep (step : G4Step.t) (st : State)
    (r : State * G4Step.t) :
  userSteppingAction env cfg step st = Ok r ->
  keep (fCurrentParticle st) = true ->
  decision r.1 = decision st.
Proof.
  unfold userSteppingAction, decision. intros Hrun Hkeep.
  invert_runs; simpl;
    repeat match goal with
      | H : AddPointToCurrentParticle _ _ _ _ _ = Ok _ |- _ =>
          apply AddPointToCurrentParticle_keep in H as [? ?];
          [|simpl; congruence]
      end; simpl in *; congruence.
Qed.


Lemma postUserTrackingAction_keep (aTrack : option G4Track.t)
    (st st' : State) :
  postUserTrackingAction aTrack st = Ok st' ->
  keep (fCurrentParticle st) = true ->
  decision st' = decision st.
Proof.
  unfold postUserTrackingAction, decision. intros Hrun Hkeep.
  rewrite Hkeep in Hrun. simpl in Hrun. invert_runs;
    repeat match goal with
      | H : updateCurrentParticle _ _ = Ok _ |- _ =>
          apply updateCurrentParticle_frame in H as (_ & ? & ?)
      end; subst; simpl in *; congruence.
Qed.

Lemma createParticle_frame (track : G4Track.t) (trackID pdgCode : Z)
    (process_name : string) (parentID : Z) (st st' : State) :
  createParticle env cfg track trackID pdgCode process_name parentID st = Ok st' ->
  fTrackIDOffset st' = fTrackIDOffset st
  /\ fCurrentParticle st'
     = MkParticleInfo (Some trackID)
         (match fFilter cfg with None => true | Some _ => false end)
  /\ exists p, fparticleList st' = <[trackID := Live p]> (fparticleList st)
               /\ fparticleList st !! trackID = None
               /\ TrackId p = trackID.
Proof.
  unfold createParticle, Add. simpl. intros Hrun.
  destruct (fparticleList st !! trackID) eqn:Hnew; simpl in Hrun; [done|].
  injection Hrun as <-. simpl. repeat split. eexists. repeat split.
Qed.

Lemma recordParentage_frame (trackID parentID : Z) (st st' : State) :
  recordParentage env trackID parentID st = Ok st' ->
  fTrackIDOffset st' = fTrackIDOffset st
  /\ fCurrentParticle st' = fCurrentParticle st
  /\ fparticleList st' = fparticleList st.
Proof.
  unfold recordParentage. intros Hrun. by invert_runs.
Qed.


(** A track that [preUserTrackingAction] leaves with a current particle
    was added to the list under its id, the engine's id plus the offset. *)
Lemma preUserTrackingAction_admitted (track : G4Track.t) (st st' : State) :
  preUserTrackingAction env cfg track st = Ok st' ->
  hasParticle (fCurrentParticle st') = true ->
  let trackID := G4Track.GetTrackID track + fTrackIDOffset st in
  fCurrentParticle st'
  = MkParticleInfo (Some trackID)
      (match fFilter cfg with None => true | Some _ => false end)
  /\ exists p, fparticleList st' !! trackID = Some (Live p)
               /\ TrackId p = trackID
               /\ fparticleList st !! trackID = None.
Proof.
  intros Hrun Hhas trackID. unfold preUserTrackingAction in Hrun.
  fold trackID in Hrun.
  invert_runs;
    repeat match goal with
      | H : createParticle _ _ _ _ _ _ _ _ = Ok _ |- _ =>
          apply createParticle_frame in H as (_ & ? & p & Hl & ? & ?);
          simpl in *
      | H : recordParentage _ _ _ _ = Ok _ |- _ =>
          apply recordParentage_frame in H as (_ & ? & _)
      end; subst; simpl in *; try discriminate;
    try (split; [done|]; exists p; rewrite Hl, lookup_insert_eq; done).
  rewrite H in Hhas. discriminate.
Qed.


End Frames.

(** ** The keep decision *)

Section KeepDecision.
Variable env : Env.
Variable cfg : Config.

Lemma run_callbacks_keep (cs : list callback) (st st' : State) :
  Forall within_track cs ->
  run_callbacks env cfg cs st = Ok st' ->
  keep (fCurrentParticle st) = true ->
  decision st' = decision st.
Proof.
  intros Hcs. revert st. induction Hcs as [|c cs Hc _ IH]; intros st; simpl.
  - by intros [= <-].
  - intros Hrun Hkeep. apply bind_Ok in Hrun as (st1 & Hstep & Hrun).
    assert (Hdec : decision st1 = decision st).
    { destruct c; simpl in Hstep; [done| |].
      - apply bind_Ok in Hstep as (r & Hstep & [= <-]).
        by apply (userSteppingAction_keep env cfg step).
      - by apply (postUserTrackingAction_keep aTrack). }
    rewrite <- Hdec. apply IH; [done|].
    unfold decision in Hdec. congruence.
Qed.

(** C9. The keep decision of a track only ever goes from false to true.
    Without a filter it is true from the moment the particle is added.
    [AddPointToCurrentParticle] leaves a true decision alone and does not
    ask the filter; on a false decision it asks the filter about the
    position it has just appended, and the answer is the new decision.
    Through the steps and the exit of the track a true decision stays
    true and the filter is not asked again. The filter is there whenever
    it is asked: a track that is added has a filter or a true decision,
    and with that [AddPointToCurrentParticle] returns and leaves things
    so. *)
Theorem keep_decision_monotone :
  (forall track st st',
      fFilter cfg = None ->
      preUserTrackingAction env cfg track st = Ok st' ->
      hasParticle (fCurrentParticle st') = true ->
      keep (fCurrentParticle st') = true)
  /\ (forall pos mom process st st',
        AddPointToCurrentParticle cfg pos mom process st = Ok st' ->
        (exists p', currentParticle st' = Ok p'
                    /\ last (Trajectory p') = Some (pos, mom, process))
        /\ (keep (fCurrentParticle st) = true ->
            keep (fCurrentParticle st') = true
            /\ mustKeepCalls st' = mustKeepCalls st)
        /\ (keep (fCurrentParticle st) = false ->
            exists f, fFilter cfg = Some f
                      /\ keep (fCurrentParticle st') = f pos
                      /\ mustKeepCalls st' = pos :: mustKeepCalls st))
  /\ (forall cs st st',
        Forall within_track cs ->
        run_callbacks env cfg cs st = Ok st' ->
        keep (fCurrentParticle st) = true ->
        keep (fCurrentParticle st') = true
        /\ mustKeepCalls st' = mustKeepCalls st)
  /\ (forall track st st',
        preUserTrackingAction env cfg track st = Ok st' ->
        hasParticle (fCurrentParticle st') = true ->
        filter_ready cfg st' /\ exists key p, current_is st' key p)
  /\ (forall pos mom process st key p,
        current_is st key p -> filter_ready cfg st ->
        exists st',
          AddPointToCurrentParticle cfg pos mom process st = Ok st'
          /\ filter_ready cfg st'
          /\ current_is st' key (AddTrajectoryPoint pos mom process p)).
Proof.
  split; [|split; [|split; [|split]]].
  - intros track st st' Hnone Hrun Hhas.
    apply preUserTrackingAction_admitted in Hrun as (Hcur & _); [|done].
    rewrite Hcur, Hnone. done.
  - intros pos mom process st st' Hrun. split; [|split].
    + unfold AddPointToCurrentParticle in Hrun.
      apply bind_Ok in Hrun as (st1 & Hupd & Hrun).
      unfold updateCurrentParticle in Hupd.
      apply bind_Ok in Hupd as (key & Hkey & Hupd). apply deref_Ok in Hkey.
      apply bind_Ok in Hupd as (p & _ & [= <-]).
      exists (AddTrajectoryPoint pos mom process p). split; [|apply last_snoc].
      assert (Hcur : current_is st' key (AddTrajectoryPoint pos mom process p)).
      { simpl in Hrun. invert_runs; (split; simpl; [done|apply lookup_insert_eq]). }
      by apply currentParticle_Ok with key.
    + by apply (AddPointToCurrentParticle_keep cfg pos mom process).
    + intros Hkeep. unfold AddPointToCurrentParticle in Hrun.
      apply bind_Ok in Hrun as (st1 & Hupd & Hrun).
      apply updateCurrentParticle_frame in Hupd as (_ & Hcur & Hcalls).
      rewrite Hcur, Hkeep in Hrun. simpl in Hrun.
      apply bind_Ok in Hrun as (f & Hf & [= <-]). apply deref_Ok in Hf.
      exists f. simpl. rewrite Hcalls. done.
  - intros cs st st' Hcs Hrun Hkeep.
    pose proof (run_callbacks_keep cs st st' Hcs Hrun Hkeep) as Hdec.
    unfold decision in Hdec. split; congruence.
  - intros track st st' Hrun Hhas.
    apply preUserTrackingAction_admitted in Hrun as (Hcur & p & Hp & _);
      [|done].
    split.
    + unfold filter_ready. rewrite Hcur. simpl. by destruct (fFilter cfg).
    + eexists _, p. split; [by rewrite Hcur|exact Hp].
  - intros pos mom process st key p Hcur Hready.
    destruct (AddPointToCurrentParticle_Ok cfg pos mom process st key p
                Hcur Hready) as (st' & Hrun & Hcur' & _ & Hkeep & _).
    exists st'. split; [exact Hrun|]. split; [|exact Hcur'].
    intros Hopen. rewrite Hkeep in Hopen.
    apply orb_false_iff in Hopen as [Hopen _]. by apply Hready.
Qed.

End KeepDecision.

(** ** The time of photons *)

Section PhotonTime.
Variable env : Env.
Variable cfg : Config.
Variable step : G4Step.t.

(** The post-step time that the fix computes. *)
Let fixedTime : float :=
  (G4Track.GetGlobalTime (G4Step.GetTrack step) - G4Step.GetDeltaTime step
   + G4Step.GetStepLength step / G4Track.GetVelocity (G4Step.GetTrack step))%float.

Lemma fixPhotonTime_photon :
  G4Track.GetPDGEncoding (G4Step.GetTrack step) = 0 ->
  (0.0001 <? PrimFloat.abs
               (G4Track.GetVelocity (G4Step.GetTrack step)
                - G4Step.GetStepLength step / G4Step.GetDeltaTime step))%float
  = true ->
  fixPhotonTime step = G4Step.SetPostGlobalTime fixedTime step.
Proof. intros Hpdg Hv. unfold fixPhotonTime. by rewrite Hpdg, Hv. Qed.

(** C3, as the code has it. For a particle of PDG code 0 whose velocity
    over the step is off the velocity of the track by more than 1e-4, the
    fix writes the recomputed time into the post-step point of the step
    before the trajectory point is made. Where the step is recorded
    (trajectories stored, process not a readout process) the point that is
    appended for this step is built from the post-step point with that
    time, so its time is the recomputed one, in ns; the step goes back to
    the engine with the recomputed time too. The start point, made from
    the pre-step point on the first step, goes before it and does not
    depend on the recomputed time. *)
Theorem photon_time_fix_recorded (process : string)
    (st : State) (key : Z) (p : MCParticle) :
  current_is st key p ->
  filter_ready cfg st ->
  G4StepPoint.GetProcessDefinedStep (G4Step.GetPostStepPoint step) = Some process ->
  G4Track.GetPDGEncoding (G4Step.GetTrack step) = 0 ->
  (0.0001 <? PrimFloat.abs
               (G4Track.GetVelocity (G4Step.GetTrack step)
                - G4Step.GetStepLength step / G4Step.GetDeltaTime step))%float
  = true ->
  fstoreTrajectories cfg = true ->
  contains "LArVoxel" process || contains "OpDetReadout" process = false ->
  exists (st' : State) (p' : MCParticle) (pos : TLorentzVector),
    userSteppingAction env cfg step st
    = Ok (st', G4Step.SetPostGlobalTime fixedTime step)
    /\ current_is st' key p'
    /\ Trajectory p'
       = Trajectory p
         ++ (if (NumberTrajectoryPoints p =? 0)%nat
             then [(fourPos env (G4Step.GetPreStepPoint step),
                    fourMom env (G4Step.GetPreStepPoint step), "Start"%string)]
             else [])
         ++ [(pos, fourMom env (G4Step.GetPostStepPoint step), process)]
    /\ pos = fourPos env
               (G4StepPoint.SetGlobalTime fixedTime (G4Step.GetPostStepPoint step))
    /\ lvT pos = (fixedTime / ns env)%float.
Proof.
  intros Hcur Hready Hproc Hpdg Hv Hstore Hignore.
  destruct (userSteppingAction_Ok env cfg step process st key p Hcur Hready Hproc)
    as (st' & p' & Hrun & Hcur' & Htraj & _).
  rewrite (fixPhotonTime_photon Hpdg Hv) in Hrun.
  exists st', p'. eexists. split; [exact Hrun|]. split; [exact Hcur'|].
  split; [|split; reflexivity].
  rewrite Htraj. unfold step_points.
  rewrite (fixPhotonTime_photon Hpdg Hv), Hstore, Hignore. reflexivity.
Qed.

End PhotonTime.

(** ** Steps on the examples *)

(** The first step of the photon of the examples: the last point of the
    trajectory has the recomputed time 10 - 1 + 2 / 1. *)
Lemma photon_time_fix_recorded_witness :
  exists (st' : State) (p' : MCParticle) (pos : TLorentzVector),
    userSteppingAction example_env example_cfg_dropEM example_photon_step
      (example_st_photon example_cfg_dropEM)
    = Ok (st', G4Step.SetPostGlobalTime 11 example_photon_step)
    /\ last (Trajectory p') = Some (pos,
         fourMom example_env (G4Step.GetPostStepPoint example_photon_step),
         "OpAbsorption"%string)
    /\ lvT pos = 11%float.
Proof.
  destruct (photon_time_fix_recorded example_env example_cfg_dropEM
              example_photon_step "OpAbsorption"
              (example_st_photon example_cfg_dropEM) 1
              (SetPolarization (MkTVector3 0 0 0)
                 (new_MCParticle 1 0 "primary" 0 0)))
    as (st' & p' & pos & Hrun & _ & Htraj & _ & Htime);
    [split; reflexivity | discriminate | reflexivity | reflexivity
    | reflexivity | reflexivity | reflexivity |].
  exists st', p', pos. split; [exact Hrun|]. split; [|exact Htime].
  rewrite Htraj, app_assoc. apply last_snoc.
Defined.

(** Against C3 as the spec words it: the engine reports 10 as the time
    of the post-step point of the photon's step; the point recorded for
    this very step has time 11, the recomputed one, and not 10. The start
    point has the time of the pre-step point, 9. *)
Lemma photon_time_fix_counterexample :
  G4StepPoint.GetGlobalTime (G4Step.GetPostStepPoint example_photon_step)
  = 10%float
  /\ exists (st' : State) (step' : G4Step.t),
       userSteppingAction example_env example_cfg_dropEM example_photon_step
         (example_st_photon example_cfg_dropEM) = Ok (st', step')
       /\ trajectory_times st' 1 = [9%float; 11%float]
       /\ trajectory_times st' 1 <> [9%float; 10%float]
       /\ G4StepPoint.GetGlobalTime (G4Step.GetPostStepPoint step') = 11%float.
Proof.
  split; [reflexivity|]. eexists _, _. split; [vm_compute; reflexivity|].
  split; [reflexivity|]. split; [|reflexivity].
  intros Heq.
  apply (f_equal (fun ts => match ts with
                            | [_; t] => (t <? 10.5)%float
                            | _ => false
                            end)) in Heq.
  vm_compute in Heq. discriminate.
Qed.

(** A step of a particle that is not a photon is recorded with the time
    the engine reports. *)
Example muon_time_not_fixed :
  exists (st' : State),
    userSteppingAction example_env example_cfg_dropEM
      (G4Step.Mk example_primary 2 1
         (G4Step.GetPreStepPoint example_photon_step)
         (G4Step.GetPostStepPoint example_photon_step))
      (example_st1 example_cfg_dropEM)
    = Ok (st', G4Step.Mk example_primary 2 1
                 (G4Step.GetPreStepPoint example_photon_step)
                 (G4Step.GetPostStepPoint example_photon_step))
    /\ trajectory_times st' 1 = [9%float; 10%float].
Proof. eexists. split; [vm_compute; reflexivity | reflexivity]. Qed.

(** Without a filter the photon is kept from its entry on, through two
    steps and its exit, and no filter is asked. *)
Lemma keep_decision_monotone_witness :
  exists st',
    run_callbacks example_env example_cfg_dropEM
      [Step example_photon_step; Step example_photon_step2; PostTrack None]
      (example_st_photon example_cfg_dropEM) = Ok st'
    /\ keep (fCurrentParticle st') = true /\ mustKeepCalls st' = [].
Proof.
  destruct (keep_decision_monotone example_env example_cfg_dropEM)
    as (_ & _ & Hmono & _).
  eexists. split; [vm_compute; reflexivity|].
  apply (Hmono [Step example_photon_step; Step example_photon_step2;
                PostTrack None]
           (example_st_photon example_cfg_dropEM));
    [repeat constructor | vm_compute; reflexivity | reflexivity].
Defined.

(** With the filter of the example: the decision is open when the photon
    enters; the start point at x = 0 is put to the filter and refused, the
    point at x = 2 cm is put to it and accepted; the third point, at
    x = 0.5 cm, is not put to the filter and the decision stays. *)
Example keep_decision_with_filter :
  keep (fCurrentParticle (example_st_photon example_cfg_filter)) = false
  /\ exists st1 st2 step1 step2,
       userSteppingAction example_env example_cfg_filter example_photon_step
         (example_st_photon example_cfg_filter) = Ok (st1, step1)
       /\ keep (fCurrentParticle st1) = true
       /\ map lvX (mustKeepCalls st1) = [2%float; 0%float]
       /\ userSteppingAction example_env example_cfg_filter
            example_photon_step2 st1 = Ok (st2, step2)
       /\ keep (fCurrentParticle st2) = true
       /\ mustKeepCalls st2 = mustKeepCalls st1
       /\ length (trajectory_times st2 1) = 3%nat.
Proof.
  split; [reflexivity|]. eexists _, _, _, _.
  split; [vm_compute; reflexivity|].
  split; [reflexivity|]. split; [reflexivity|].
  split; [vm_compute; reflexivity|].
  repeat split.
Qed.

(** ** The entries of the list *)

Lemma elem_of_entries (pl : ParticleList) (k : Z) (s : slot) :
  (k, s) ∈ entries pl <-> pl !! k = Some s.
Proof.
  unfold entries. rewrite merge_sort_Permutation. apply elem_of_map_to_list.
Qed.


(** The entries come in ascending order of their keys. *)
Example entries_example : (entries example_list).*1 = [1; 2; 3; 4; 5].
Proof. reflexivity. Qed.

(** ** The offset of the track ids *)




(** ** Daughters *)

Section Daughters.
Variable pl0 : ParticleList.

Lemma same_skeleton_lookup (pl : ParticleList) (k : Z) :
  same_skeleton pl0 pl -> skeleton <$> (pl !! k) = skeleton <$> (pl0 !! k).
Proof. intros Hsk. by rewrite <- !lookup_fmap, Hsk. Qed.

Lemma same_skeleton_GetMotherOf (pl : ParticleList) (k : Z) :
  same_skeleton pl0 pl -> GetMotherOf pl k = GetMotherOf pl0 k.
Proof.
  intros Hsk. pose proof (same_skeleton_lookup pl k Hsk) as Hk.
  unfold GetMotherOf.
  destruct (pl !! k) as [[p|m]|], (pl0 !! k) as [[p'|m']|]; simpl in Hk;
    try done; injection Hk; congruence.
Qed.

Lemma same_skeleton_KnownParticle (pl : ParticleList) (k : Z) :
  same_skeleton pl0 pl -> KnownParticle pl k = KnownParticle pl0 k.
Proof.
  intros Hsk. pose proof (same_skeleton_lookup pl k Hsk) as Hk.
  unfold KnownParticle.
  by destruct (pl !! k) as [[p|m]|], (pl0 !! k) as [[p'|m']|].
Qed.

Lemma same_skeleton_AddDaughter (pl : ParticleList) (k d : Z) (p : MCParticle) :
  same_skeleton pl0 pl -> pl !! k = Some (Live p) ->
  same_skeleton pl0 (<[k := Live (AddDaughter d p)]> pl).
Proof.
  unfold same_skeleton. intros Hsk Hk. rewrite <- Hsk.
  rewrite fmap_insert. apply insert_id.
  by rewrite lookup_fmap, Hk.
Qed.

Lemma daughters_of_AddDaughter (pl : ParticleList) (k d j : Z) (p : MCParticle) :
  pl !! k = Some (Live p) ->
  daughters_of (<[k := Live (AddDaughter d p)]> pl) j
  = if decide (j = k) then {[d]} ∪ daughters_of pl k else daughters_of pl j.
Proof.
  intros Hk. unfold daughters_of. destruct (decide (j = k)) as [->|Hne].
  - by rewrite lookup_insert_eq, Hk.
  - by rewrite lookup_insert_ne.
Qed.

(** One call of the functor, on an entry whose key is in the list. *)
Lemma UpdateDaughterInformation_Ok (e : Z * slot) (pl : ParticleList) :
  same_skeleton pl0 pl -> is_Some (pl0 !! e.1) ->
  exists pl',
    UpdateDaughterInformation e pl = Ok pl'
    /\ same_skeleton pl0 pl'
    /\ forall k d,
         d ∈ daughters_of pl' k
         <-> d ∈ daughters_of pl k
             \/ (d = e.1 /\ 0 < k /\ KnownParticle pl0 k = true
                 /\ GetMotherOf pl0 d = Ok k).
Proof.
  intros Hsk [s Hs]. unfold UpdateDaughterInformation.
  rewrite (same_skeleton_GetMotherOf pl e.1 Hsk).
  assert (Hm : exists m, GetMotherOf pl0 e.1 = Ok m).
  { unfold GetMotherOf. rewrite Hs. destruct s; eauto. }
  destruct Hm as [m Hm]. rewrite Hm. simpl.
  pose proof (same_skeleton_KnownParticle pl m Hsk) as Hknown.
  unfold KnownParticle in Hknown at 1.
  destruct (Z.leb_spec m 0) as [Hle|Hlt].
  { exists pl. split; [done|]. split; [done|]. intros k d. split; [by left|].
    intros [Hd|(-> & Hk & _ & Hmk)]; [done|]. rewrite Hm in Hmk.
    injection Hmk as ->. lia. }
  destruct (pl !! m) as [[parent|mm]|] eqn:Hparent.
  - eexists. split; [reflexivity|].
    split; [by apply same_skeleton_AddDaughter|].
    intros k d. rewrite (daughters_of_AddDaughter pl m e.1 k parent Hparent).
    destruct (decide (k = m)) as [->|Hne].
    + rewrite elem_of_union, elem_of_singleton. split.
      * intros [->|Hd]; [right|by left]. done.
      * intros [Hd|(-> & _)]; [by right|by left].
    + split; [by left|]. intros [Hd|(-> & _ & _ & Hmk)]; [done|].
      rewrite Hm in Hmk. by injection Hmk as ->.
  - exists pl. split; [done|]. split; [done|]. intros k d. split; [by left|].
    intros [Hd|(-> & _ & Hk & Hmk)]; [done|]. rewrite Hm in Hmk.
    injection Hmk as ->. congruence.
  - exists pl. split; [done|]. split; [done|]. intros k d. split; [by left|].
    intros [Hd|(-> & _ & Hk & Hmk)]; [done|]. rewrite Hm in Hmk.
    injection Hmk as ->. congruence.
Qed.

(** The pass over a range of entries whose keys are in the list. *)
Lemma for_each_UpdateDaughterInformation (range : list (Z * slot))
    (pl : ParticleList) :
  same_skeleton pl0 pl -> (forall e, e ∈ range -> is_Some (pl0 !! e.1)) ->
  exists pl',
    for_each range UpdateDaughterInformation pl = Ok pl'
    /\ same_skeleton pl0 pl'
    /\ forall k d,
         d ∈ daughters_of pl' k
         <-> d ∈ daughters_of pl k
             \/ ((exists s, (d, s) ∈ range) /\ 0 < k
                 /\ KnownParticle pl0 k = true /\ GetMotherOf pl0 d = Ok k).
Proof.
  revert pl. induction range as [|e range IH]; intros pl Hsk Hkeys; simpl.
  - exists pl. split; [done|]. split; [done|]. intros k d. split; [by left|].
    intros [Hd|([s Hs] & _)]; [done|]. by apply elem_of_nil in Hs.
  - destruct (UpdateDaughterInformation_Ok e pl Hsk) as (pl1 & -> & Hsk1 & H1).
    { apply Hkeys, list_elem_of_here. }
    simpl. destruct (IH pl1 Hsk1) as (pl' & Hrun & Hsk' & H').
    { intros e' He'. by apply Hkeys, list_elem_of_further. }
    exists pl'. split; [exact Hrun|]. split; [exact Hsk'|].
    intros k d. rewrite H', H1. split.
    + intros [[Hd|(-> & Hk & Hknown & Hmk)]|([s Hs] & Hrest)].
      * by left.
      * right. split; [|done]. exists e.2. destruct e. apply list_elem_of_here.
      * right. split; [|done]. exists s. by apply list_elem_of_further.
    + intros [Hd|([s Hs] & Hrest)]; [by left; left|].
      apply elem_of_cons in Hs as [<-|Hs].
      * left. right. done.
      * right. split; [by exists s|done].
Qed.

End Daughters.



Lemma KnownParticle_Live (pl : ParticleList) (k : Z) :
  KnownParticle pl k = true <-> exists M, pl !! k = Some (Live M).
Proof.
  unfold KnownParticle. destruct (pl !! k) as [[M|m]|]; split;
    try done; [eauto | intros [? [=]] | intros [? [=]]].
Qed.

(** C8. The daughter-linking pass ends without a fault and changes
    nothing but daughter sets. Afterwards [d] is a daughter of the
    particle under [k] exactly when it was one before or when [d] is a
    key of the list whose mother id is [k], with [k] positive and a live
    particle under [k]. So a particle with a live mother is among the
    daughters of that mother; and at the turn of a particle whose mother
    id is not positive, or not a key of the list, or the key of an
    archived entry, the functor hands the list back as it was. *)
Theorem daughters_linked (pl : ParticleList) :
  exists pl',
    linkDaughters pl = Ok pl'
    /\ skeleton <$> pl' = skeleton <$> pl
    /\ (forall k d,
          d ∈ daughters_of pl' k
          <-> d ∈ daughters_of pl k
              \/ (0 < k /\ (exists M, pl !! k = Some (Live M))
                  /\ GetMotherOf pl d = Ok k))
    /\ (forall idP P idM M,
          pl !! idP = Some (Live P) -> Mother P = idM -> 0 < idM ->
          pl !! idM = Some (Live M) ->
          exists M', pl' !! idM = Some (Live M') /\ idP ∈ Daughters M')
    /\ (forall e pl1 mother,
          e ∈ entries pl -> skeleton <$> pl1 = skeleton <$> pl ->
          GetMotherOf pl e.1 = Ok mother ->
          mother <= 0 \/ (forall M, pl !! mother <> Some (Live M)) ->
          UpdateDaughterInformation e pl1 = Ok pl1).
Proof.
  destruct (for_each_UpdateDaughterInformation pl (entries pl) pl)
    as (pl' & Hrun & Hsk & Hd); [done| |].
  { intros [k s] He. apply elem_of_entries in He. simpl. eauto. }
  assert (Hall : forall k d,
            d ∈ daughters_of pl' k
            <-> d ∈ daughters_of pl k
                \/ (0 < k /\ (exists M, pl !! k = Some (Live M))
                    /\ GetMotherOf pl d = Ok k)).
  { intros k d. rewrite Hd, <- KnownParticle_Live. split.
    - intros [?|(_ & ?)]; [by left|by right].
    - intros [?|(Hk & Hknown & Hm)]; [by left|right]. split; [|done].
      unfold GetMotherOf in Hm. destruct (pl !! d) as [s|] eqn:Hs; [|done].
      exists s. by apply elem_of_entries. }
  exists pl'. split; [exact Hrun|]. split; [exact Hsk|]. split; [exact Hall|].
  split.
  - intros idP P idM M HP Hmother Hpos HM.
    assert (Hin : idP ∈ daughters_of pl' idM).
    { apply Hall. right. split; [done|]. split; [by exists M|].
      unfold GetMotherOf. by rewrite HP, Hmother. }
    unfold daughters_of in Hin.
    destruct (pl' !! idM) as [[M'|m]|]; [eauto|by apply elem_of_empty in Hin..].
  - intros e pl1 mother He Hsk1 Hmother Hcase.
    unfold UpdateDaughterInformation.
    rewrite (same_skeleton_GetMotherOf pl pl1 e.1 Hsk1), Hmother. simpl.
    destruct Hcase as [Hle|Hunknown].
    + by destruct (Z.leb_spec mother 0); [|lia].
    + destruct (mother <=? 0); [done|].
      pose proof (same_skeleton_lookup pl pl1 mother Hsk1) as Hlook.
      destruct (pl1 !! mother) as [[parent|m]|] eqn:Hparent; [|done..].
      destruct (pl !! mother) as [[M|m]|] eqn:HM; simpl in Hlook; try done.
      by destruct (Hunknown M).
Qed.

(** ** The end of the event *)

Section EndOfEvent.
Variable env : Env.

(** On a live entry the [while] loop of [endOfEventAction] uses up any
    fuel: its iterator stays where it is. *)
Lemma drain_loop_diverges (fuel : nat) (mct : MCTruthPtr) (e : Z * slot)
    (rest : list (Z * slot)) (pl : ParticleList) (st : State) (p : MCParticle) :
  pl !! e.1 = Some (Live p) ->
  drain_loop env fuel mct (e :: rest) pl st = Fault NonTermination.
Proof.
  revert pl st p. induction fuel as [|fuel IH]; intros pl st p Hp; simpl; [done|].
  rewrite Hp. simpl. apply (IH _ _ (moved_from env p)).
  apply lookup_insert_eq.
Qed.






End EndOfEvent.


Section TrackIDOffset.
Variable env : Env.
Variable cfg : Config.


End TrackIDOffset.

(** C1 on an input: one primary particle in the list and one truth
    record. [endOfEventAction] never leaves its [while] loop, whose body
    does not advance the iterator: the run is out of fuel for every
    amount of fuel, so nothing is emitted. *)
Theorem endOfEventAction_example_diverges (fuel : nat) :
  hasParticle (fCurrentParticle (example_st1 example_cfg_cut)) = true
  /\ endOfEventAction example_env fuel [1%nat] (example_st1 example_cfg_cut)
     = Fault NonTermination.
Proof.
  split; [reflexivity|].
  unfold endOfEventAction.
  replace (linkDaughters _)
    with (Ok (fparticleList (example_st1 example_cfg_cut)))
    by (vm_compute; reflexivity).
  simpl.
  destruct (example_st1_list example_cfg_cut) as (p & Hl & _).
  set (st1 := set_fparticleList _ _).
  assert (Hl1 : fparticleList st1 = <[1 := Live p]> ∅).
  { rewrite <- Hl. reflexivity. }
  unfold YieldList, advanceTrackIDOffset. rewrite Hl1. simpl.
  assert (He : entries (<[1 := Live p]> ∅) = [(1, Live p)]) by reflexivity.
  assert (Hsize : (size (<[1%Z := Live p]> (∅ : ParticleList)) =? 0)%nat = false)
    by reflexivity.
  rewrite He, Hsize. simpl. rewrite Hl, He.
  rewrite (drain_loop_diverges example_env fuel _ (1, Live p) [] _ _ p);
    [reflexivity|]. apply lookup_insert_eq.
Qed.

(** Without a truth record the loop is never entered and the event ends
    with nothing emitted. *)
Example endOfEventAction_no_truth :
  exists st',
    endOfEventAction example_env 0 [] (example_st1 example_cfg_cut) = Ok st'
    /\ partCol_ st' = [] /\ tpassn_ st' = [] /\ fTrackIDOffset st' = 2.
Proof. eexists. split; [vm_compute; reflexivity|]. repeat split. Qed.

(** ** The end of the event on the examples *)


(** The second event of the example: the same primary enters again and
    is added under the id 3. *)
Example second_event_ids :
  exists st2,
    preUserTrackingAction example_env example_cfg_cut example_primary
      (beginOfEventAction example_env
         (YieldList (example_st1 example_cfg_cut)).2) = Ok st2
    /\ fCurrentTrackID st2 = 3
    /\ dom (fparticleList st2) = {[3]}.
Proof. eexists. split; [vm_compute; reflexivity|]. split; reflexivity. Qed.

(** On the list of the examples 3 ends among the daughters of 1. *)
Lemma daughters_linked_witness :
  exists (pl' : ParticleList) (M' : MCParticle),
    linkDaughters example_list = Ok pl'
    /\ pl' !! 1 = Some (Live M') /\ 3 ∈ Daughters M'.
Proof.
  destruct (daughters_linked example_list) as (pl' & Hrun & _ & _ & Hkept & _).
  destruct (Hkept 3 (example_particle 3 1) 1 (example_particle 1 0))
    as (M' & HM' & Hin); [reflexivity | reflexivity | lia | reflexivity |].
  by exists pl', M'.
Defined.

(** The pass on the list of the example: the live 3 and the archived 2
    are daughters of 1; nobody else has daughters. *)
Example daughters_linked_example :
  exists pl',
    linkDaughters example_list = Ok pl'
    /\ dom pl' = dom example_list
    /\ daughters_of pl' 1 = {[2; 3]}
    /\ daughters_of pl' 2 = ∅
    /\ daughters_of pl' 3 = ∅
    /\ daughters_of pl' 4 = ∅
    /\ daughters_of pl' 5 = ∅
    /\ daughters_of pl' 9 = ∅.
Proof. eexists. split; [vm_compute; reflexivity|]. repeat split. Qed.

(** * Further properties *)

(** ** Parentage along the map *)

Section ParentageSteps.
Variable NoId : Z.
Variable m : ParentIDMap.

Lemma size_pos_of_key (k v : Z) : m !! k = Some v -> (0 < size m)%nat.
Proof.
  intros Hk. destruct (size m) eqn:Hsz; [|lia].
  apply map_size_empty_inv in Hsz. by rewrite Hsz, lookup_empty in Hk.
Qed.

(** X1. [GetParentage] follows the map one entry at a time: for a track
    with the entry [trackid -> parent], the answer is [parent] itself
    where [parent] has no entry, and the answer for [parent] where it has
    one. This holds for every map, with or without cycles (both sides
    are without an answer together). *)
Theorem GetParentage_unfold (trackid parent : Z) :
  m !! trackid = Some parent ->
  GetParentage NoId m trackid
  = match m !! parent with
    | None => Some parent
    | Some _ => GetParentage NoId m parent
    end.
Proof.
  intros Ht. pose proof (size_pos_of_key _ _ Ht) as Hsz.
  destruct (m !! parent) as [w|] eqn:Hp.
  - destruct (GetParentage NoId m parent) as [r|] eqn:Hr.
    + unfold GetParentage, GetParentage_fuel in Hr.
      destruct (GetParentage_loop_chain _ _ _ _ _ Hr)
        as (n & e & _ & Hf & He & ->).
      assert (HfS : follow m (S n) trackid = Some e) by (simpl; by rewrite Ht).
      pose proof (ending_chain_bounded m _ _ _ HfS He) as Hbound.
      unfold GetParentage, GetParentage_fuel.
      rewrite (GetParentage_loop_follow m (S n) _ trackid NoId e HfS He Hbound).
      destruct n; simpl in *; [congruence|done].
    + destruct (GetParentage NoId m trackid) as [r|] eqn:Hr'; [|done].
      unfold GetParentage, GetParentage_fuel in Hr'.
      destruct (GetParentage_loop_chain _ _ _ _ _ Hr')
        as (n & e & _ & Hf & He & _).
      destruct n as [|n]; simpl in Hf; [congruence|]. rewrite Ht in Hf.
      assert (HfS : follow m (S n) trackid = Some e) by (simpl; by rewrite Ht).
      pose proof (ending_chain_bounded m _ _ _ HfS He) as Hbound.
      unfold GetParentage, GetParentage_fuel in Hr.
      rewrite (GetParentage_loop_follow m n _ parent NoId e Hf He) in Hr;
        [done|lia].
  - unfold GetParentage, GetParentage_fuel. rewrite Ht.
    destruct (size m) as [|fuel]; [lia|]. simpl. rewrite Hp. by destruct fuel.
Qed.

(** The loop does not see an entry under a key that it never meets. *)
Lemma GetParentage_loop_insert (new parent : Z) (fuel : nat) (k parentid : Z) :
  (forall k' v, m !! k' = Some v -> v <> new) -> k <> new ->
  GetParentage_loop fuel (<[new := parent]> m) parentid
    (<[new := parent]> m !! k)
  = GetParentage_loop fuel m parentid (m !! k).
Proof.
  intros Hvalues. revert k parentid.
  induction fuel as [|fuel IH]; intros k parentid Hk;
    rewrite lookup_insert_ne by done; simpl.
  - done.
  - destruct (m !! k) as [v|] eqn:Hv; [|done]. apply IH. by eapply Hvalues.
Qed.

(** X2. Giving a new track its entry in the map does not change the
    answer for any other track, as long as the new track is nobody's
    recorded parent. *)
Theorem GetParentage_insert_other (new parent trackid : Z) :
  (forall k v, m !! k = Some v -> v <> new) ->
  trackid <> new ->
  GetParentage NoId (<[new := parent]> m) trackid = GetParentage NoId m trackid.
Proof.
  intros Hvalues Hne.
  assert (Hsize : (size m <= size (<[new := parent]> m))%nat).
  { destruct (m !! new) as [v|] eqn:Hnew.
    - rewrite <- (insert_delete_id m new v Hnew), insert_insert_eq.
      rewrite !map_size_insert_None by apply lookup_delete_eq. lia.
    - rewrite map_size_insert_None by done. lia. }
  unfold GetParentage at 1. unfold GetParentage_fuel.
  rewrite GetParentage_loop_insert by done.
  change (GetParentage_fuel NoId (size (<[new := parent]> m)) m trackid
          = GetParentage NoId m trackid).
  destruct (GetParentage_fuel NoId (size (<[new := parent]> m)) m trackid)
    as [r|] eqn:Hr.
  - symmetry. by eapply GetParentage_fuel_bound.
  - destruct (GetParentage NoId m trackid) as [r|] eqn:Hr'; [|done].
    unfold GetParentage in Hr'.
    rewrite (GetParentage_fuel_mono NoId m _ _ _ _ Hr' Hsize) in Hr. done.
Qed.

End ParentageSteps.

(** On the chain 3 -> 2 -> 1: the answer for 3 is the answer for 2, and
    an entry for a track 4 changes nothing for 3. *)
Lemma GetParentage_unfold_witness :
  GetParentage NoParticleId_value example_chain 3
  = match example_chain !! 2 with
    | None => Some 2
    | Some _ => GetParentage NoParticleId_value example_chain 2
    end.
Proof. apply GetParentage_unfold. reflexivity. Defined.

Lemma GetParentage_insert_other_witness :
  GetParentage NoParticleId_value (<[4 := 3]> example_chain) 3
  = GetParentage NoParticleId_value example_chain 3.
Proof.
  apply GetParentage_insert_other; [|discriminate].
  intros k v Hk Hv. subst v. unfold example_chain in Hk.
  destruct (decide (k = 3)) as [->|H3].
  - rewrite lookup_insert_eq in Hk. discriminate.
  - rewrite lookup_insert_ne in Hk by done.
    destruct (decide (k = 2)) as [->|H2].
    + rewrite lookup_insert_eq in Hk. discriminate.
    + by rewrite lookup_insert_ne, lookup_empty in Hk.
Defined.

(** ** Steps, read backwards *)

Lemma fixPhotonTime_process (step : G4Step.t) :
  G4StepPoint.GetProcessDefinedStep (G4Step.GetPostStepPoint (fixPhotonTime step))
  = G4StepPoint.GetProcessDefinedStep (G4Step.GetPostStepPoint step).
Proof. unfold fixPhotonTime. by destruct (andb _ _). Qed.

Lemma fixPhotonTime_pre (step : G4Step.t) :
  G4Step.GetPreStepPoint (fixPhotonTime step) = G4Step.GetPreStepPoint step.
Proof. unfold fixPhotonTime. by destruct (andb _ _). Qed.

Section StepsInverted.
Variable env : Env.
Variable cfg : Config.

Lemma currentParticle_inv (st : State) (p : MCParticle) :
  currentParticle st = Ok p -> exists key, current_is st key p.
Proof.
  unfold currentParticle. intros Hrun.
  apply bind_Ok in Hrun as (key & Hkey & Hrun). apply deref_Ok in Hkey.
  apply bind_Ok in Hrun as (e & He & Hrun). apply deref_Ok in He.
  apply deref_Ok in Hrun. exists key. split; [done|].
  destruct e as [q|mother]; simpl in Hrun; [|done]. by injection Hrun as ->.
Qed.

Lemma current_is_unique (st : State) (key key' : Z) (p p' : MCParticle) :
  current_is st key p -> current_is st key' p' -> key' = key /\ p' = p.
Proof. intros [Hk Hp] [Hk' Hp']. split; congruence. Qed.

Lemma AddPointToCurrentParticle_inv (pos mom : TLorentzVector)
    (process : string) (st st' : State) :
  AddPointToCurrentParticle cfg pos mom process st = Ok st' ->
  exists key p,
    current_is st key p
    /\ current_is st' key (AddTrajectoryPoint pos mom process p)
    /\ fparticleList st'
       = <[key := Live (AddTrajectoryPoint pos mom process p)]> (fparticleList st)
    /\ bookkeeping st' = bookkeeping st.
Proof.
  unfold AddPointToCurrentParticle. intros Hrun.
  apply bind_Ok in Hrun as (st1 & Hupd & Hrun).
  unfold updateCurrentParticle in Hupd.
  apply bind_Ok in Hupd as (key & Hkey & Hupd). apply deref_Ok in Hkey.
  apply bind_Ok in Hupd as (p & Hp & [= <-]).
  apply currentParticle_inv in Hp as (key' & Hcur).
  assert (key' = key) as -> by (destruct Hcur; congruence).
  exists key, p. split; [done|]. simpl in Hrun.
  destruct (negb (keep (fCurrentParticle st))).
  - apply bind_Ok in Hrun as (f & _ & [= <-]). simpl.
    repeat split; try done. simpl. apply lookup_insert_eq.
  - injection Hrun as <-. simpl.
    repeat split; try done. simpl. apply lookup_insert_eq.
Qed.

(** A step that returns, on the particle that is current: the process
    of the post-step point is there, [step_points] are appended, and
    nothing else is written. *)
Lemma userSteppingAction_inv (step step' : G4Step.t) (st st' : State)
    (key : Z) (p : MCParticle) :
  userSteppingAction env cfg step st = Ok (st', step') ->
  current_is st key p ->
  exists process p',
    G4StepPoint.GetProcessDefinedStep (G4Step.GetPostStepPoint step)
    = Some process
    /\ step' = fixPhotonTime step
    /\ current_is st' key p'
    /\ p' = MkMCParticle (TrackId p) (PdgCode p) (Process p) (Mother p)
              (Mass p) (Polarization p) (Weight p) (EndProcess p)
              (Trajectory p ++ step_points env cfg step process p)
              (Daughters p)
    /\ fparticleList st' = <[key := Live p']> (fparticleList st)
    /\ bookkeeping st' = bookkeeping st.
Proof.
  intros Hrun Hcur. unfold userSteppingAction, hasParticle in Hrun.
  pose proof Hcur as [Hkey Hp]. rewrite Hkey in Hrun. simpl in Hrun.
  set (st1 := set_globals _ _ _ st) in Hrun.
  assert (Hcur1 : current_is st1 key p) by done.
  rewrite (currentParticle_Ok st1 key p Hcur1) in Hrun. simpl in Hrun.
  apply bind_Ok in Hrun as (st2 & Hstart & Hrun).
  apply bind_Ok in Hrun as (process & Hproc & Hrun). apply deref_Ok in Hproc.
  assert (Hproc' : G4StepPoint.GetProcessDefinedStep (G4Step.GetPostStepPoint step)
                   = Some process).
  { by rewrite <- fixPhotonTime_process. }
  exists process. unfold step_points.
  assert (Hstart' : exists p2,
            current_is st2 key p2
            /\ p2 = MkMCParticle (TrackId p) (PdgCode p) (Process p) (Mother p)
                      (Mass p) (Polarization p) (Weight p) (EndProcess p)
                      (Trajectory p
                       ++ (if (NumberTrajectoryPoints p =? 0)%nat
                           then [(fourPos env (G4Step.GetPreStepPoint (fixPhotonTime step)),
                                  fourMom env (G4Step.GetPreStepPoint (fixPhotonTime step)),
                                  "Start"%string)]
                           else []))
                      (Daughters p)
            /\ fparticleList st2 = <[key := Live p2]> (fparticleList st)
            /\ bookkeeping st2 = bookkeeping st).
  { destruct (NumberTrajectoryPoints p =? 0)%nat.
    - apply AddPointToCurrentParticle_inv in Hstart
        as (key' & q & Hq & Hq' & Hl & Hb).
      destruct (current_is_unique _ _ _ _ _ Hcur1 Hq) as [-> ->].
      eexists. split; [exact Hq'|]. split; [reflexivity|]. by split.
    - injection Hstart as <-. exists p. split; [done|].
      split; [destruct p; simpl; by rewrite app_nil_r|].
      split; [|done]. simpl. symmetry. by apply insert_id. }
  destruct Hstart' as (p2 & Hcur2 & Hp2 & Hl2 & Hb2).
  destruct (fstoreTrajectories cfg && _).
  - apply bind_Ok in Hrun as (st3 & Hpost & [= <- <-]).
    apply AddPointToCurrentParticle_inv in Hpost
      as (key' & q & Hq & Hq' & Hl & Hb).
    destruct (current_is_unique _ _ _ _ _ Hcur2 Hq) as [-> ->].
    eexists. split; [exact Hproc'|]. split; [reflexivity|].
    split; [exact Hq'|]. split; [|split].
    + rewrite Hp2. unfold AddTrajectoryPoint. simpl. by rewrite <- app_assoc.
    + by rewrite Hl, Hl2, insert_insert_eq.
    + by rewrite Hb.
  - injection Hrun as <- <-. exists p2. rewrite app_nil_r.
    split; [exact Hproc'|]. split; [reflexivity|].
    split; [exact Hcur2|]. split; [exact Hp2|]. by split.
Qed.

End StepsInverted.

(** ** Steps and exits without a particle, and what a step writes *)

Section StepExtras.
Variable env : Env.
Variable cfg : Config.

Lemma run_callbacks_without_particle (cs : list callback) (st : State) :
  hasParticle (fCurrentParticle st) = false ->
  Forall within_track cs ->
  run_callbacks env cfg cs st = Ok st.
Proof.
  intros Hnone Hcs. induction Hcs as [|c cs Hc _ IH]; simpl; [done|].
  assert (Hc' : run_callback env cfg c st = Ok st).
  { destruct c; simpl; [done| |].
    - unfold userSteppingAction. by rewrite Hnone.
    - unfold postUserTrackingAction. unfold hasParticle in Hnone.
      by destruct (particle (fCurrentParticle st)). }
  by rewrite Hc'.
Qed.

(** X3. While no particle is current (before the first track of an
    event, or after a track that was not added to the list), the
    callbacks of a track do nothing: [userSteppingAction] hands back the
    state and the step as they came, the time of a photon's step is not
    recomputed, and [postUserTrackingAction] hands back the state. *)
Theorem callbacks_without_particle (st : State) :
  hasParticle (fCurrentParticle st) = false ->
  (forall step, userSteppingAction env cfg step st = Ok (st, step))
  /\ (forall aTrack, postUserTrackingAction aTrack st = Ok st)
  /\ (forall cs, Forall within_track cs -> run_callbacks env cfg cs st = Ok st).
Proof.
  intros Hnone. split; [|split].
  - intros step. unfold userSteppingAction. by rewrite Hnone.
  - intros aTrack. unfold postUserTrackingAction. unfold hasParticle in Hnone.
    by destruct (particle (fCurrentParticle st)).
  - intros cs Hcs. by apply run_callbacks_without_particle.
Qed.

(** X4. A step that returns writes to the trajectory of the current
    particle and to nothing else: the particle keeps its id, mother,
    process, daughters and the rest; the other entries of the list, the
    parent map, the offset, the current track id and the outputs are as
    before; the step comes back as [fixPhotonTime] leaves it. *)
Theorem step_writes_trajectory_only (step step' : G4Step.t) (st st' : State)
    (key : Z) (p : MCParticle) :
  userSteppingAction env cfg step st = Ok (st', step') ->
  current_is st key p ->
  exists p',
    current_is st' key p'
    /\ trajectory_extended p p'
    /\ (forall k, k <> key -> fparticleList st' !! k = fparticleList st !! k)
    /\ dom (fparticleList st') = dom (fparticleList st)
    /\ bookkeeping st' = bookkeeping st
    /\ step' = fixPhotonTime step.
Proof.
  intros Hrun Hcur.
  destruct (userSteppingAction_inv env cfg step step' st st' key p Hrun Hcur)
    as (process & p' & _ & Hstep & Hcur' & Hp' & Hl & Hb).
  exists p'. split; [exact Hcur'|]. split.
  { rewrite Hp'. unfold trajectory_extended. simpl. repeat split. eauto. }
  split; [|split; [|by split]].
  - intros k Hk. rewrite Hl. by apply lookup_insert_ne.
  - rewrite Hl. apply dom_insert_lookup_L. destruct Hcur as [_ ->]. eauto.
Qed.

(** Steps on a particle that has points already. *)
Lemma steps_extend (steps : list G4Step.t) (st st' : State)
    (key : Z) (p : MCParticle) :
  current_is st key p -> Trajectory p <> [] ->
  run_callbacks env cfg (Step <$> steps) st = Ok st' ->
  exists p' points,
    current_is st' key p'
    /\ Trajectory p' = Trajectory p ++ points
    /\ (length points <= length steps)%nat
    /\ (fstoreTrajectories cfg = false -> points = []).
Proof.
  revert st p. induction steps as [|step steps IH]; intros st p Hcur Hne; simpl.
  - intros [= <-]. exists p, []. rewrite app_nil_r.
    split; [exact Hcur|]. split; [done|]. split; [simpl; lia|done].
  - intros Hrun. apply bind_Ok in Hrun as (st1 & Hstep & Hrun).
    apply bind_Ok in Hstep as ([st1' step'] & Hstep & [= <-]). simpl in Hrun.
    destruct (userSteppingAction_inv env cfg step step' st st1' key p Hstep Hcur)
      as (process & p1 & _ & _ & Hcur1 & Hp1 & _).
    assert (Htraj1 : exists pts, Trajectory p1 = Trajectory p ++ pts
                       /\ (length pts <= 1)%nat
                       /\ (fstoreTrajectories cfg = false -> pts = [])).
    { rewrite Hp1. simpl. unfold step_points, NumberTrajectoryPoints.
      destruct (Trajectory p) eqn:Ht; [done|]. simpl.
      destruct (fstoreTrajectories cfg); simpl.
      - destruct (negb _); eexists; (split; [reflexivity|]); simpl;
          split; (lia || done).
      - exists []. split; [done|]. split; [simpl; lia|done]. }
    destruct Htraj1 as (pts & Ht1 & Hlen1 & Hoff1).
    destruct (IH st1' p1 Hcur1) as (p' & points & Hcur' & Ht' & Hlen & Hoff);
      [|exact Hrun|].
    { rewrite Ht1. destruct (Trajectory p); [done|]. done. }
    exists p', (pts ++ points). split; [exact Hcur'|].
    split; [by rewrite Ht', Ht1, app_assoc|]. split.
    + rewrite length_app. unfold TrajectoryPoint in *. lia.
    + intros Hstore. by rewrite Hoff1, Hoff.
Qed.

(** X5. The steps of a particle that enters with an empty trajectory:
    the first point of the trajectory is the start point, made from the
    pre-step point of the first step, and every step adds at most one
    point after it. *)
Theorem trajectory_begins_at_start (first : G4Step.t) (rest : list G4Step.t)
    (st st' : State) (key : Z) (p : MCParticle) :
  current_is st key p -> Trajectory p = [] ->
  run_callbacks env cfg (Step <$> first :: rest) st = Ok st' ->
  exists p' points,
    current_is st' key p'
    /\ Trajectory p'
       = (fourPos env (G4Step.GetPreStepPoint first),
          fourMom env (G4Step.GetPreStepPoint first), "Start"%string) :: points
    /\ (length points <= S (length rest))%nat.
Proof.
  intros Hcur Hempty Hrun. simpl in Hrun.
  apply bind_Ok in Hrun as (st1 & Hstep & Hrun).
  apply bind_Ok in Hstep as ([st1' step'] & Hstep & [= <-]). simpl in Hrun.
  destruct (userSteppingAction_inv env cfg first step' st st1' key p Hstep Hcur)
    as (process & p1 & _ & _ & Hcur1 & Hp1 & _).
  assert (Ht1 : exists pts,
            Trajectory p1
            = (fourPos env (G4Step.GetPreStepPoint first),
               fourMom env (G4Step.GetPreStepPoint first), "Start"%string) :: pts
            /\ (length pts <= 1)%nat).
  { rewrite Hp1. simpl. unfold step_points, NumberTrajectoryPoints.
    rewrite Hempty, fixPhotonTime_pre. simpl.
    destruct (_ && _); eexists; (split; [reflexivity|simpl; lia]). }
  destruct Ht1 as (pts & Ht1 & Hlen1).
  destruct (steps_extend rest st1' st' key p1 Hcur1) as (p' & points & Hcur' & Ht' & Hlen & _);
    [by rewrite Ht1 | exact Hrun |].
  exists p', (pts ++ points). split; [exact Hcur'|].
  split; [by rewrite Ht', Ht1|]. rewrite length_app.
  unfold TrajectoryPoint in *. lia.
Qed.

(** X6. With [fstoreTrajectories] false the trajectory of a particle is
    its start point and nothing more, however many steps it takes: no
    later point is recorded, the last one included. *)
Theorem trajectory_not_stored (first : G4Step.t) (rest : list G4Step.t)
    (st st' : State) (key : Z) (p : MCParticle) :
  fstoreTrajectories cfg = false ->
  current_is st key p -> Trajectory p = [] ->
  run_callbacks env cfg (Step <$> first :: rest) st = Ok st' ->
  exists p',
    current_is st' key p'
    /\ Trajectory p'
       = [(fourPos env (G4Step.GetPreStepPoint first),
           fourMom env (G4Step.GetPreStepPoint first), "Start"%string)].
Proof.
  intros Hstore Hcur Hempty Hrun. simpl in Hrun.
  apply bind_Ok in Hrun as (st1 & Hstep & Hrun).
  apply bind_Ok in Hstep as ([st1' step'] & Hstep & [= <-]). simpl in Hrun.
  destruct (userSteppingAction_inv env cfg first step' st st1' key p Hstep Hcur)
    as (process & p1 & _ & _ & Hcur1 & Hp1 & _).
  assert (Ht1 : Trajectory p1
                = [(fourPos env (G4Step.GetPreStepPoint first),
                    fourMom env (G4Step.GetPreStepPoint first), "Start"%string)]).
  { rewrite Hp1. simpl. unfold step_points, NumberTrajectoryPoints.
    by rewrite Hempty, fixPhotonTime_pre, Hstore. }
  destruct (steps_extend rest st1' st' key p1 Hcur1)
    as (p' & points & Hcur' & Ht' & _ & Hoff); [by rewrite Ht1 | exact Hrun |].
  exists p'. split; [exact Hcur'|]. by rewrite Ht', Ht1, (Hoff Hstore).
Qed.

(** X7. A particle is counted as dropped by [isDropped] until its first
    step and never after: a step that returns leaves the current
    particle with at least one trajectory point. *)
Theorem stepped_particle_not_dropped (step step' : G4Step.t) (st st' : State)
    (key : Z) (p : MCParticle) :
  userSteppingAction env cfg step st = Ok (st', step') ->
  current_is st key p ->
  exists p',
    current_is st' key p'
    /\ isDropped (Some p') = false
    /\ (isDropped (Some p) = true ->
        exists points,
          Trajectory p'
          = (fourPos env (G4Step.GetPreStepPoint step),
             fourMom env (G4Step.GetPreStepPoint step), "Start"%string) :: points).
Proof.
  intros Hrun Hcur.
  destruct (userSteppingAction_inv env cfg step step' st st' key p Hrun Hcur)
    as (process & p' & _ & _ & Hcur' & Hp' & _).
  exists p'. split; [exact Hcur'|]. rewrite Hp'. unfold isDropped. simpl.
  unfold step_points, NumberTrajectoryPoints.
  destruct (Trajectory p) as [|pt pts] eqn:Ht; simpl.
  - rewrite fixPhotonTime_pre. split; [done|]. intros _. eauto.
  - split; [done|]. intros [=].
Qed.

End StepExtras.

(** The neutron of the examples was dropped: the photon's step that
    follows comes back as it went in, with time 10. *)
Lemma callbacks_without_particle_witness :
  userSteppingAction example_env example_cfg_cut example_photon_step example_st2
  = Ok (example_st2, example_photon_step)
  /\ postUserTrackingAction (Some example_slow) example_st2 = Ok example_st2.
Proof.
  destruct (callbacks_without_particle example_env example_cfg_cut example_st2)
    as (Hstep & Hpost & _); [reflexivity|].
  split; [apply Hstep | apply Hpost].
Defined.

Lemma example_photon_current (cfg : Config) :
  fFilter cfg = None ->
  current_is (example_st_photon cfg) 1 example_photon_particle.
Proof.
  intros Hf. unfold example_st_photon, after, preUserTrackingAction. simpl.
  unfold createParticle. simpl. rewrite Hf. by split.
Qed.

(** The first step of the photon of the examples. *)
Lemma step_writes_trajectory_only_witness :
  exists st' step' p',
    userSteppingAction example_env example_cfg_dropEM example_photon_step
      (example_st_photon example_cfg_dropEM) = Ok (st', step')
    /\ current_is st' 1 p'
    /\ trajectory_extended example_photon_particle p'
    /\ bookkeeping st' = bookkeeping (example_st_photon example_cfg_dropEM).
Proof.
  destruct (userSteppingAction example_env example_cfg_dropEM example_photon_step
              (example_st_photon example_cfg_dropEM))
    as [[st' step']|f] eqn:Hrun; [|by vm_compute in Hrun].
  destruct (step_writes_trajectory_only example_env example_cfg_dropEM
              example_photon_step step' (example_st_photon example_cfg_dropEM) st' 1
              example_photon_particle Hrun)
    as (p' & Hcur & Hext & _ & _ & Hb & _).
  { by apply example_photon_current. }
  exists st', step', p'. done.
Defined.

(** Two steps of the photon of the examples. *)
Lemma trajectory_begins_at_start_witness :
  exists st' p' points,
    run_callbacks example_env example_cfg_dropEM
      (Step <$> [example_photon_step; example_photon_step2])
      (example_st_photon example_cfg_dropEM) = Ok st'
    /\ current_is st' 1 p'
    /\ Trajectory p'
       = (fourPos example_env (G4Step.GetPreStepPoint example_photon_step),
          fourMom example_env (G4Step.GetPreStepPoint example_photon_step),
          "Start"%string) :: points
    /\ (length points <= 2)%nat.
Proof.
  destruct (run_callbacks example_env example_cfg_dropEM
              (Step <$> [example_photon_step; example_photon_step2])
              (example_st_photon example_cfg_dropEM))
    as [st'|f] eqn:Hrun; [|by vm_compute in Hrun].
  destruct (trajectory_begins_at_start example_env example_cfg_dropEM
              example_photon_step [example_photon_step2]
              (example_st_photon example_cfg_dropEM) st' 1
              example_photon_particle)
    as (p' & points & Hcur & Ht & Hlen);
    [by apply example_photon_current | reflexivity | exact Hrun |].
  exists st', p', points. done.
Defined.

(** The same two steps with trajectories not stored. *)
Lemma trajectory_not_stored_witness :
  exists st' p',
    run_callbacks example_env example_cfg_nostore
      (Step <$> [example_photon_step; example_photon_step2])
      (example_st_photon example_cfg_nostore) = Ok st'
    /\ current_is st' 1 p'
    /\ Trajectory p'
       = [(fourPos example_env (G4Step.GetPreStepPoint example_photon_step),
           fourMom example_env (G4Step.GetPreStepPoint example_photon_step),
           "Start"%string)].
Proof.
  destruct (run_callbacks example_env example_cfg_nostore
              (Step <$> [example_photon_step; example_photon_step2])
              (example_st_photon example_cfg_nostore))
    as [st'|f] eqn:Hrun; [|by vm_compute in Hrun].
  destruct (trajectory_not_stored example_env example_cfg_nostore
              example_photon_step [example_photon_step2]
              (example_st_photon example_cfg_nostore) st' 1
              example_photon_particle)
    as (p' & Hcur & Ht);
    [reflexivity | by apply example_photon_current | reflexivity
    | exact Hrun |].
  by exists st', p'.
Defined.

(** The photon of the examples before and after its first step. *)
Lemma stepped_particle_not_dropped_witness :
  isDropped (Some example_photon_particle) = true
  /\ exists st' step' p',
       userSteppingAction example_env example_cfg_dropEM example_photon_step
         (example_st_photon example_cfg_dropEM) = Ok (st', step')
       /\ current_is st' 1 p'
       /\ isDropped (Some p') = false.
Proof.
  split; [reflexivity|].
  destruct (userSteppingAction example_env example_cfg_dropEM example_photon_step
              (example_st_photon example_cfg_dropEM))
    as [[st' step']|f] eqn:Hrun; [|by vm_compute in Hrun].
  destruct (stepped_particle_not_dropped example_env example_cfg_dropEM
              example_photon_step step' (example_st_photon example_cfg_dropEM) st' 1
              example_photon_particle Hrun)
    as (p' & Hcur & Hnot & _).
  { by apply example_photon_current. }
  by exists st', step', p'.
Defined.

(** ** Track entry, read backwards *)

Section EntryInverted.
Variable env : Env.
Variable cfg : Config.

(** The particle that [createParticle] makes. *)
Lemma createParticle_inv (track : G4Track.t) (trackID pdgCode : Z)
    (process_name : string) (parentID : Z) (st st' : State) :
  createParticle env cfg track trackID pdgCode process_name parentID st = Ok st' ->
  fparticleList st !! trackID = None
  /\ st' = set_fparticleList
             (<[trackID :=
                  Live (SetPolarization
                          (MkTVector3 (g4x (G4Track.GetPolarization track))
                             (g4y (G4Track.GetPolarization track))
                             (g4z (G4Track.GetPolarization track)))
                          (new_MCParticle trackID pdgCode process_name parentID
                             (G4Track.GetMass track / GeV env)%float))]>
                (fparticleList st))
             (set_fCurrentParticle
                (MkParticleInfo (Some trackID)
                   (match fFilter cfg with None => true | Some _ => false end))
                st).
Proof.
  unfold createParticle, Add. simpl.
  destruct (fparticleList st !! trackID); simpl; [done|].
  by intros [= <-].
Qed.

Lemma recordParentage_inv (trackID parentID : Z) (st st' : State) :
  recordParentage env trackID parentID st = Ok st' ->
  exists ancestor,
    GetParentage (NoParticleId env) (<[trackID := parentID]> (fParentIDMap st))
      trackID = Some ancestor
    /\ st' = set_fCurrentTrackID (- ancestor)
               (set_fParentIDMap (<[trackID := parentID]> (fParentIDMap st)) st).
Proof.
  unfold recordParentage, callGetParentage. simpl.
  destruct (GetParentage _ _ _) as [ancestor|]; simpl; [|done].
  intros [= <-]. exists ancestor. split; [done|].
  by replace (-1 * ancestor) with (- ancestor) by lia.
Qed.

(** A track entry that returns either added the track to the list or
    dropped it. *)
Lemma preUserTrackingAction_inv (track : G4Track.t) (st st' : State) :
  preUserTrackingAction env cfg track st = Ok st' ->
  let trackID := G4Track.GetTrackID track + fTrackIDOffset st in
  let parentID := G4Track.GetParentID track + fTrackIDOffset st in
  let pmap := <[trackID := parentID]> (fParentIDMap st) in
  fTrackIDOffset st' = fTrackIDOffset st
  /\ partCol_ st' = partCol_ st /\ tpassn_ st' = tpassn_ st
  /\ ((exists p,
         fparticleList st !! trackID = None
         /\ fparticleList st' = <[trackID := Live p]> (fparticleList st)
         /\ fCurrentParticle st'
            = MkParticleInfo (Some trackID)
                (match fFilter cfg with None => true | Some _ => false end)
         /\ fCurrentTrackID st' = trackID
         /\ (fParentIDMap st' = fParentIDMap st \/ fParentIDMap st' = pmap)
         /\ TrackId p = trackID /\ Trajectory p = [] /\ Daughters p = ∅)
      \/ (exists ancestor,
            G4Track.GetPrimaryParticle track = None
            /\ fparticleList st' = fparticleList st
            /\ fCurrentParticle st' = clear
            /\ fParentIDMap st' = pmap
            /\ GetParentage (NoParticleId env) pmap trackID = Some ancestor
            /\ (fCurrentTrackID st' = - ancestor
                \/ fCurrentTrackID st' = NoParticleId env))).
Proof.
  intros Hrun trackID parentID pmap. unfold preUserTrackingAction in Hrun.
  fold trackID parentID in Hrun.
  assert (Hadd : forall process_name mother st0,
            createParticle env cfg track trackID (G4Track.GetPDGEncoding track)
              process_name mother st0 = Ok st' ->
            fTrackIDOffset st0 = fTrackIDOffset st ->
            partCol_ st0 = partCol_ st -> tpassn_ st0 = tpassn_ st ->
            fparticleList st0 = fparticleList st ->
            fCurrentTrackID st0 = trackID ->
            (fParentIDMap st0 = fParentIDMap st \/ fParentIDMap st0 = pmap) ->
            fTrackIDOffset st' = fTrackIDOffset st
            /\ partCol_ st' = partCol_ st /\ tpassn_ st' = tpassn_ st
            /\ ((exists p,
                   fparticleList st !! trackID = None
                   /\ fparticleList st' = <[trackID := Live p]> (fparticleList st)
                   /\ fCurrentParticle st'
                      = MkParticleInfo (Some trackID)
                          (match fFilter cfg with None => true | Some _ => false end)
                   /\ fCurrentTrackID st' = trackID
                   /\ (fParentIDMap st' = fParentIDMap st
                       \/ fParentIDMap st' = pmap)
                   /\ TrackId p = trackID /\ Trajectory p = []
                   /\ Daughters p = ∅)
                \/ (exists ancestor,
                      G4Track.GetPrimaryParticle track = None
                      /\ fparticleList st' = fparticleList st
                      /\ fCurrentParticle st' = clear
                      /\ fParentIDMap st' = pmap
                      /\ GetParentage (NoParticleId env) pmap trackID
                         = Some ancestor
                      /\ (fCurrentTrackID st' = - ancestor
                          \/ fCurrentTrackID st' = NoParticleId env)))).
  { intros process_name mother st0 Hcreate Hoff Hcol Hassn Hlist Hid Hmap.
    apply createParticle_inv in Hcreate as (Hnew & ->). simpl.
    do 3 (split; [done|]). left. eexists. rewrite <- Hlist.
    repeat split; try done. }
  destruct (G4Track.GetPrimaryParticle track) as [primaryParticle|] eqn:Hprim.
  { destruct (ppi primaryParticle); eapply Hadd; eauto. }
  apply bind_Ok in Hrun as (process_name & _ & Hrun).
  destruct (negb (fKeepEMShowerDaughters cfg) && isEMShowerProcess process_name).
  { apply bind_Ok in Hrun as (st1 & Hrec & [= <-]).
    apply recordParentage_inv in Hrec as (ancestor & Hanc & ->). simpl.
    do 3 (split; [by destruct (negb _)|]). right. exists ancestor.
    split; [done|]. destruct (negb _); simpl; repeat split; auto. }
  destruct (_ <? _)%float.
  { apply recordParentage_inv in Hrun as (ancestor & Hanc & ->). simpl.
    do 3 (split; [done|]). right. exists ancestor. repeat split; auto. }
  destruct (negb (KnownParticle _ _)).
  - apply bind_Ok in Hrun as (pid & _ & Hrun).
    destruct (negb (KnownParticle _ _)); eapply Hadd; eauto.
  - eapply Hadd; eauto.
Qed.

End EntryInverted.

(** ** The exit of a track *)

Section TrackExit.
Variable st : State.
Variable key : Z.
Variable p : MCParticle.

(** X8. A track that ends with its keep decision still false is
    archived, whatever the track handed to the callback is: the slot of
    the current particle is cleared and the entry stays in the list
    without its particle, the list no longer knows the id as a particle
    and still answers its mother id; weight and end process are not
    recorded, and the rest of the list is as before. *)
Theorem undecided_track_archived (aTrack : option G4Track.t) :
  current_is st key p ->
  keep (fCurrentParticle st) = false ->
  exists st',
    postUserTrackingAction aTrack st = Ok st'
    /\ fCurrentParticle st' = clear
    /\ fparticleList st' !! key = Some (Archived (Mother p))
    /\ KnownParticle (fparticleList st') key = false
    /\ GetMotherOf (fparticleList st') key = Ok (Mother p)
    /\ (forall k, k <> key -> fparticleList st' !! k = fparticleList st !! k)
    /\ dom (fparticleList st') = dom (fparticleList st)
    /\ bookkeeping st' = bookkeeping st.
Proof.
  intros [Hkey Hp] Hkeep. unfold postUserTrackingAction.
  rewrite Hkey, Hkeep. simpl. eexists. split; [reflexivity|]. simpl.
  unfold Archive. rewrite Hp.
  unfold KnownParticle, GetMotherOf. rewrite lookup_insert_eq.
  do 4 (split; [done|]). split; [|split; [|done]].
  - intros k Hk. by apply lookup_insert_ne.
  - apply dom_insert_lookup_L. by rewrite Hp.
Qed.

(** X9. A track that ends with a true keep decision stays in the list:
    from the track handed to the callback its weight and the name of the
    process of its last step go into the particle, and nothing else
    changes; without a track nothing changes at all; with a track whose
    last step has no process the callback faults on the null pointer. *)
Theorem kept_track_finished :
  current_is st key p ->
  keep (fCurrentParticle st) = true ->
  postUserTrackingAction None st = Ok st
  /\ (forall track process,
        G4Track.GetStepProcess track = Some process ->
        exists st',
          postUserTrackingAction (Some track) st = Ok st'
          /\ fparticleList st'
             = <[key := Live (SetEndProcess process
                                (SetWeight (G4Track.GetWeight track) p))]>
                 (fparticleList st)
          /\ fCurrentParticle st' = fCurrentParticle st
          /\ bookkeeping st' = bookkeeping st)
  /\ (forall track,
        G4Track.GetStepProcess track = None ->
        postUserTrackingAction (Some track) st = Fault NullPointer).
Proof.
  intros Hcur Hkeep. pose proof Hcur as [Hkey Hp].
  unfold postUserTrackingAction. rewrite Hkey, Hkeep. simpl.
  split; [done|]. split.
  - intros track process Hprocess.
    rewrite (updateCurrentParticle_Ok _ st key p Hcur). simpl.
    rewrite Hprocess. simpl.
    erewrite updateCurrentParticle_Ok;
      [|split; [exact Hkey | simpl; apply lookup_insert_eq]].
    eexists. split; [reflexivity|]. simpl. by rewrite insert_insert_eq.
  - intros track Hnone.
    rewrite (updateCurrentParticle_Ok _ st key p Hcur). simpl.
    by rewrite Hnone.
Qed.

End TrackExit.

(** ** More of the entry of a track *)

Section EntryExtras.
Variable env : Env.
Variable cfg : Config.
Variable track : G4Track.t.
Variable st : State.

Let trackID : Z := G4Track.GetTrackID track + fTrackIDOffset st.
Let parentID : Z := G4Track.GetParentID track + fTrackIDOffset st.
Let pmap : ParentIDMap := <[trackID := parentID]> (fParentIDMap st).

(** X10. A track that has a primary particle without
    [PrimaryParticleInformation] is added to the list like a primary,
    past the EM-shower test and the energy cut, but keeps the process
    name ["unknown"] and its own parent id (with the offset); its parent
    is not looked up and the parent map is left alone. *)
Theorem primary_without_information (primaryParticle : G4PrimaryParticle) :
  G4Track.GetPrimaryParticle track = Some primaryParticle ->
  ppi primaryParticle = false ->
  fparticleList st !! trackID = None ->
  exists (q : MCParticle) (st' : State),
    preUserTrackingAction env cfg track st = Ok st'
    /\ fparticleList st' = <[trackID := Live q]> (fparticleList st)
    /\ TrackId q = trackID
    /\ Process q = "unknown"%string
    /\ Mother q = parentID
    /\ fParentIDMap st' = fParentIDMap st
    /\ fCurrentTrackID st' = trackID.
Proof.
  intros Hprim Hppi Hnew. unfold preUserTrackingAction. rewrite Hprim, Hppi.
  destruct (createParticle_Ok env cfg track trackID
              (G4Track.GetPDGEncoding track) "unknown" parentID
              (set_fCurrentTrackID trackID st) Hnew)
    as (q & Hrun & Hid & _ & Hprocess & Hmother & _).
  exists q. eexists. split; [exact Hrun|]. by simpl.
Qed.

(** X11. A secondary that passes the EM-shower test and the energy cut
    is added to the list with the name of its creator process, the
    engine's code and mass (in GeV) and an empty trajectory. Its mother
    is its parent where the list knows the parent; otherwise the track
    gets an entry in the parent map and its mother is the answer of
    [GetParentage] for the parent where the list knows that, and the
    parent itself where it does not. *)
Theorem secondary_admitted (process_name : string) (pid : Z) :
  G4Track.GetPrimaryParticle track = None ->
  G4Track.GetCreatorProcess track = Some process_name ->
  negb (fKeepEMShowerDaughters cfg) && isEMShowerProcess process_name = false ->
  (G4Track.GetKineticEnergy track <? fenergyCut cfg)%float = false ->
  fparticleList st !! trackID = None ->
  (KnownParticle (fparticleList st) parentID = false ->
   GetParentage (NoParticleId env) pmap parentID = Some pid) ->
  exists (q : MCParticle) (st' : State),
    preUserTrackingAction env cfg track st = Ok st'
    /\ fparticleList st' = <[trackID := Live q]> (fparticleList st)
    /\ TrackId q = trackID
    /\ PdgCode q = G4Track.GetPDGEncoding track
    /\ Process q = process_name
    /\ Mass q = (G4Track.GetMass track / GeV env)%float
    /\ Trajectory q = []
    /\ Mother q
       = (if KnownParticle (fparticleList st) parentID then parentID
          else if KnownParticle (fparticleList st) pid then pid
               else parentID)
    /\ fParentIDMap st'
       = (if KnownParticle (fparticleList st) parentID then fParentIDMap st
          else pmap)
    /\ fCurrentTrackID st' = trackID
    /\ particle (fCurrentParticle st') = Some trackID.
Proof.
  intros Hprim Hproc Hem Hcut Hnew Hpid.
  unfold preUserTrackingAction. rewrite Hprim, Hproc. simpl.
  rewrite Hem, Hcut. fold trackID parentID. simpl.
  assert (Hcreate : forall mother st0,
            fparticleList st0 = fparticleList st ->
            exists q st',
              createParticle env cfg track trackID (G4Track.GetPDGEncoding track)
                process_name mother st0 = Ok st'
              /\ fparticleList st' = <[trackID := Live q]> (fparticleList st)
              /\ TrackId q = trackID
              /\ PdgCode q = G4Track.GetPDGEncoding track
              /\ Process q = process_name
              /\ Mass q = (G4Track.GetMass track / GeV env)%float
              /\ Trajectory q = []
              /\ Mother q = mother
              /\ fParentIDMap st' = fParentIDMap st0
              /\ fCurrentTrackID st' = fCurrentTrackID st0
              /\ particle (fCurrentParticle st') = Some trackID).
  { intros mother st0 Hlist. unfold createParticle, Add. simpl.
    eexists _, _. rewrite Hlist, Hnew. simpl. split; [reflexivity|].
    by simpl. }
  destruct (KnownParticle (fparticleList st) parentID) eqn:Hknown; simpl.
  - destruct (Hcreate parentID (set_fCurrentTrackID trackID st) eq_refl)
      as (q & st' & Hrun & Hrest).
    exists q, st'. split; [exact Hrun|]. exact Hrest.
  - fold pmap. rewrite (callGetParentage_Ok env _ _ pid) by (by apply Hpid).
    simpl.
    destruct (KnownParticle (fparticleList st) pid); simpl.
    + destruct (Hcreate pid
                  (set_fParentIDMap pmap (set_fCurrentTrackID trackID st))
                  eq_refl) as (q & st' & Hrun & Hrest).
      exists q, st'. split; [exact Hrun|]. exact Hrest.
    + destruct (Hcreate parentID
                  (set_fParentIDMap pmap (set_fCurrentTrackID trackID st))
                  eq_refl) as (q & st' & Hrun & Hrest).
      exists q, st'. split; [exact Hrun|]. exact Hrest.
Qed.

(** X12. A track entry that returns has touched nothing that belongs to
    other tracks: every entry of the list is still there and unchanged,
    the parent map has changed at most under the id of the entering
    track, and the offset and the outputs are as before. Either the
    track is now the current particle, with a new live entry under its
    id and no trajectory yet, or no particle is current and the list is
    the same. *)
Theorem track_entry_keeps_others (st' : State) :
  preUserTrackingAction env cfg track st = Ok st' ->
  (forall k s, fparticleList st !! k = Some s -> fparticleList st' !! k = Some s)
  /\ (forall k, k <> trackID ->
        fparticleList st' !! k = fparticleList st !! k
        /\ fParentIDMap st' !! k = fParentIDMap st !! k)
  /\ fTrackIDOffset st' = fTrackIDOffset st
  /\ partCol_ st' = partCol_ st /\ tpassn_ st' = tpassn_ st
  /\ ((exists q, current_is st' trackID q /\ Trajectory q = []
                 /\ fparticleList st !! trackID = None)
      \/ (hasParticle (fCurrentParticle st') = false
          /\ fparticleList st' = fparticleList st)).
Proof.
  intros Hrun.
  destruct (preUserTrackingAction_inv env cfg track st st' Hrun)
    as (Hoff & Hcol & Hassn & Hcases).
  fold trackID parentID pmap in Hcases.
  assert (Hmap : fParentIDMap st' = fParentIDMap st \/ fParentIDMap st' = pmap).
  { destruct Hcases as [(q & _ & _ & _ & _ & Hmap & _)
                       |(a & _ & _ & _ & Hmap & _)]; auto. }
  assert (Hmap' : forall k, k <> trackID ->
            fParentIDMap st' !! k = fParentIDMap st !! k).
  { intros k Hk. destruct Hmap as [->| ->]; [done|].
    unfold pmap. by apply lookup_insert_ne. }
  destruct Hcases as [(q & Hnew & Hlist & Hcur & _ & _ & Hid & Htraj & _)
                     |(a & _ & Hlist & Hcur & _)].
  - split; [|split; [|split; [|split; [|split]]]]; try done.
    + intros k s Hk. rewrite Hlist.
      rewrite lookup_insert_ne; [done|]. intros <-. congruence.
    + intros k Hk. split; [|by apply Hmap']. rewrite Hlist.
      by apply lookup_insert_ne.
    + left. exists q. split; [|done]. split; [by rewrite Hcur|].
      rewrite Hlist. apply lookup_insert_eq.
  - split; [|split; [|split; [|split; [|split]]]]; try done.
    + intros k s Hk. by rewrite Hlist.
    + intros k Hk. split; [by rewrite Hlist|by apply Hmap'].
    + right. by rewrite Hcur.
Qed.

End EntryExtras.

(** The photon of the examples under the filter of the examples, which
    has not accepted it when it exits at once. *)
Lemma undecided_track_archived_witness :
  exists st',
    postUserTrackingAction (Some example_photon)
      (example_st_photon example_cfg_filter) = Ok st'
    /\ fCurrentParticle st' = clear
    /\ KnownParticle (fparticleList st') 1 = false
    /\ GetMotherOf (fparticleList st') 1 = Ok 0.
Proof.
  destruct (undecided_track_archived (example_st_photon example_cfg_filter) 1
              example_photon_particle (Some example_photon))
    as (st' & Hrun & Hslot & _ & Hknown & Hmother & _);
    [split; reflexivity | reflexivity |].
  by exists st'.
Defined.

(** The photon of the examples without a filter, at its exit. *)
Lemma kept_track_finished_witness :
  exists st',
    postUserTrackingAction (Some example_photon)
      (example_st_photon example_cfg_dropEM) = Ok st'
    /\ fparticleList st'
       = <[1 := Live (SetEndProcess "OpAbsorption"
                        (SetWeight 1 example_photon_particle))]>
           (fparticleList (example_st_photon example_cfg_dropEM)).
Proof.
  destruct (kept_track_finished (example_st_photon example_cfg_dropEM) 1
              example_photon_particle)
    as (_ & Hkept & _); [by apply example_photon_current | reflexivity |].
  destruct (Hkept example_photon "OpAbsorption"%string eq_refl)
    as (st' & Hrun & Hlist & _).
  by exists st'.
Defined.

(** The muon without [PrimaryParticleInformation]. *)
Lemma primary_without_information_witness :
  exists (q : MCParticle) (st' : State),
    preUserTrackingAction example_env example_cfg_cut example_primary_noinfo
      example_st0 = Ok st'
    /\ Process q = "unknown"%string
    /\ Mother q = 0 + 0
    /\ fparticleList st' = <[1 + 0 := Live q]> ∅.
Proof.
  destruct (primary_without_information example_env example_cfg_cut
              example_primary_noinfo example_st0 (MkG4PrimaryParticle false))
    as (q & st' & Hrun & Hlist & _ & Hprocess & Hmother & _);
    [reflexivity | reflexivity | reflexivity |].
  by exists q, st'.
Defined.

(** The proton of the examples, whose parent, the neutron, was dropped. *)
Lemma secondary_admitted_witness :
  exists (q : MCParticle) (st' : State),
    preUserTrackingAction example_env example_cfg_cut example_grandchild
      example_st2 = Ok st'
    /\ Process q = "neutronInelastic"%string
    /\ Mother q = 1
    /\ fParentIDMap st' !! 3 = Some 2.
Proof.
  destruct (secondary_admitted example_env example_cfg_cut example_grandchild
              example_st2 "neutronInelastic" 1)
    as (q & st' & Hrun & _ & _ & _ & Hprocess & _ & _ & Hmother & Hmap & _);
    [reflexivity | reflexivity | reflexivity | reflexivity | reflexivity
    | intros _; reflexivity |].
  exists q, st'. split; [exact Hrun|]. split; [exact Hprocess|].
  split; [exact Hmother|]. by rewrite Hmap.
Defined.

(** The neutron of the examples is dropped: the list is the same. *)
Lemma track_entry_keeps_others_witness :
  fparticleList example_st2 = fparticleList (example_st1 example_cfg_cut)
  /\ fParentIDMap example_st2 !! 1
     = fParentIDMap (example_st1 example_cfg_cut) !! 1.
Proof.
  destruct (track_entry_keeps_others example_env example_cfg_cut example_slow
              (example_st1 example_cfg_cut) example_st2)
    as (_ & Hother & _ & _ & _ & Hcases); [reflexivity|].
  split.
  - destruct Hcases as [(q & [Hcur _] & _)|[_ Hlist]]; [discriminate|done].
  - apply Hother. discriminate.
Defined.

(** ** Track ids over the events of a run *)

Section Run.
Variable env : Env.
Variable cfg : Config.










End Run.


(** ** The list at the end of the event *)


Section EndOfEventReturns.
Variable env : Env.




End EndOfEventReturns.

(** ** The daughter pass, run again *)

Lemma slot_ext (s s' : slot) :
  skeleton s = skeleton s' ->
  (forall p p', s = Live p -> s' = Live p' -> Daughters p = Daughters p') ->
  s = s'.
Proof.
  destruct s as [p|m], s' as [p'|m']; simpl; try done.
  intros [= Hid Hpdg Hprocess Hmother Hmass Hpol Hweight Hend Htraj] Hd.
  specialize (Hd p p' eq_refl eq_refl). destruct p, p'. simpl in *.
  by subst.
Qed.

(** X16. The daughter pass is idempotent: on the list that one pass
    leaves, a second pass changes nothing. *)
Theorem linkDaughters_idempotent (pl pl' : ParticleList) :
  linkDaughters pl = Ok pl' -> linkDaughters pl' = Ok pl'.
Proof.
  intros Hrun.
  destruct (for_each_UpdateDaughterInformation pl (entries pl) pl)
    as (pl1 & Hrun1 & Hsk1 & Hd1); [done| |].
  { intros [k s] He. apply elem_of_entries in He. simpl. eauto. }
  assert (pl1 = pl') as -> by (unfold linkDaughters in Hrun; congruence).
  destruct (for_each_UpdateDaughterInformation pl' (entries pl') pl')
    as (pl2 & Hrun2 & Hsk2 & Hd2); [done| |].
  { intros [k s] He. apply elem_of_entries in He. simpl. eauto. }
  unfold linkDaughters. rewrite Hrun2. f_equal.
  apply map_eq. intros k.
  pose proof (same_skeleton_lookup pl' pl2 k Hsk2) as Hk.
  assert (Hdk : daughters_of pl2 k = daughters_of pl' k).
  { apply set_eq. intros d. rewrite Hd2. split; [|by left].
    intros [Hd|((s & Hs) & Hpos & Hknown & Hm)]; [done|].
    apply Hd1. right.
    rewrite (same_skeleton_KnownParticle pl pl' k Hsk1) in Hknown.
    rewrite (same_skeleton_GetMotherOf pl pl' d Hsk1) in Hm.
    split; [|done]. apply elem_of_entries in Hs.
    pose proof (same_skeleton_lookup pl pl' d Hsk1) as Hds.
    rewrite Hs in Hds. destruct (pl !! d) as [s0|] eqn:Hs0; [|done].
    exists s0. by apply elem_of_entries. }
  unfold daughters_of in Hdk.
  destruct (pl2 !! k) as [s2|] eqn:Hs2, (pl' !! k) as [s'|] eqn:Hs';
    simpl in Hk; try done.
  f_equal. apply slot_ext; [by injection Hk|].
  intros p p' -> ->. exact Hdk.
Qed.

(** On the list of the examples. *)
Lemma linkDaughters_idempotent_witness :
  exists pl',
    linkDaughters example_list = Ok pl' /\ linkDaughters pl' = Ok pl'.
Proof.
  destruct (linkDaughters example_list) as [pl'|f] eqn:Hrun;
    [|by vm_compute in Hrun].
  exists pl'. split; [done|]. by apply linkDaughters_idempotent with example_list.
Defined.

(** ** The sign of the current track id *)




